(** * ChatConnect: the chat session state engine of [ChatApp.tsx]

    A shallow embedding of the state logic of the [ChatApp] component
    (src/components/ChatApp.tsx): the message log and its reaction maps, the
    roster, the status throttle, the search cursor, the scroll restoration
    and the simulated responder with its delayed callbacks.  The repository
    holds two revisions of the component; the later one adds the message
    search and delays the end of a logout by 150 ms, and the handlers
    modelled here are otherwise the same in both.  The model follows the
    later revision.

    Conventions of the embedding.
    - React state and refs are the fields of [State]; a functional update
      [setX(prev => f prev)] is [f] applied to the field of the state at the
      moment the update runs.
    - A variable that a callback closes over is an explicit argument of the
      function that models the callback, under the name it has in the
      source.  Delayed callbacks ([setTimeout], [requestAnimationFrame]) are
      the constructors of [Callback]; their arguments are the closed-over
      values, fixed when the callback is scheduled.
    - [handleEmojiReaction] is made by [useCallback] with an empty dependency
      list, so the component keeps the callback of its first render, and the
      [currentUser] inside it is the one of that render ([closedOverUser]).
      The body of the handler is modelled with that binding as an argument;
      what the running component does is the body at [closedOverUser].
    - [Date.now()], the local time zone and [Math.random()] are inputs ([Env]);
      a handler runs at one clock reading.
    - Text is a string of bytes.  For ASCII text ([Js.isAscii]) that is the
      string JavaScript has, one UTF-16 unit per byte, and [Js.trim],
      [Js.toLowerCase] and [String.length] are [trim], [toLowerCase] and
      [length] of JavaScript.  Outside ASCII they are not, and a property
      that rests on what they compute is stated for ASCII text.
    - Calls that only reach the rendering surface (focus, [scrollIntoView],
      the emoji picker) are left out: what the browser does with them is not
      in the source.  The element that the scroll code measures is kept, with
      [scrollTop] as a plain field. *)

From Stdlib Require Import ZArith Ascii String DecimalString DecimalN Lia.
From stdpp Require Import gmap strings list sorting.

Local Open Scope string_scope.
Local Open Scope list_scope.
Local Open Scope Z_scope.

(** ** Strings *)

Module Js.

(** Text within the ASCII range: every byte is below 128. *)
Definition isAsciiChar (c : ascii) : bool := (N_of_ascii c <? 128)%N.

Fixpoint isAscii (s : string) : bool :=
  match s with
  | EmptyString => true
  | String c s' => isAsciiChar c && isAscii s'
  end.

(** The white space of [trim] and of the class [\s] within ASCII: tab, line
    feed, vertical tab, form feed, carriage return and space. *)
Definition isWhiteSpace (c : ascii) : bool :=
  let n := N_of_ascii c in
  ((9 <=? n) && (n <=? 13) || (n =? 32))%N.

Fixpoint trimStart (s : string) : string :=
  match s with
  | EmptyString => EmptyString
  | String c s' => if isWhiteSpace c then trimStart s' else s
  end.

Definition trimEnd (s : string) : string := String.rev (trimStart (String.rev s)).

Definition trim (s : string) : string := trimEnd (trimStart s).

(** Truthiness of a string: the empty string is the only falsy one. *)
Definition truthy (s : string) : bool :=
  match s with EmptyString => false | String _ _ => true end.

Definition lowerChar (c : ascii) : ascii :=
  let n := N_of_ascii c in
  if ((65 <=? n) && (n <=? 90))%N then ascii_of_N (n + 32) else c.

Fixpoint toLowerCase (s : string) : string :=
  match s with
  | EmptyString => EmptyString
  | String c s' => String (lowerChar c) (toLowerCase s')
  end.

Fixpoint startsWith (s q : string) {struct q} : bool :=
  match q, s with
  | EmptyString, _ => true
  | String _ _, EmptyString => false
  | String b q', String a s' => if Ascii.eqb a b then startsWith s' q' else false
  end.

(** [s.includes(q)] *)
Fixpoint includes (s q : string) : bool :=
  startsWith s q ||
  match s with
  | EmptyString => false
  | String _ s' => includes s' q
  end.

(** A number inside a template literal: its decimal digits (the numbers
    rendered by the component are never negative). *)
Definition ofNumber (n : Z) : string :=
  NilZero.string_of_uint (N.to_uint (Z.to_N n)).

End Js.

(** ** Data model *)

Module User.
Inductive Status := online | offline | brb | busy.

Record t := mk {
  id : string;
  name : string;
  avatar : string;
  status : Status;
  lastSeen : option Z;
  isTyping : bool
}.

Definition setIsTyping (b : bool) (u : t) : t :=
  mk (id u) (name u) (avatar u) (status u) (lastSeen u) b.

Definition setStatus (s : Status) (u : t) : t :=
  mk (id u) (name u) (avatar u) s (lastSeen u) (isTyping u).
End User.

Module Message.
Inductive Status := sent | delivered | read.

Record t := mk {
  id : string;
  senderId : string;
  text : string;
  timestamp : Z;
  reactions : gmap string string;
  status : Status
}.

Definition setReactions (r : gmap string string) (m : t) : t :=
  mk (id m) (senderId m) (text m) (timestamp m) r (status m).
End Message.

#[global] Instance user_status_eq_dec : EqDecision User.Status.
Proof. solve_decision. Defined.
#[global] Instance user_eq_dec : EqDecision User.t.
Proof. solve_decision. Defined.
#[global] Instance message_status_eq_dec : EqDecision Message.Status.
Proof. solve_decision. Defined.
#[global] Instance message_eq_dec : EqDecision Message.t.
Proof. solve_decision. Defined.

(** ** Environment: clock and random source *)

(** [now] is [Date.now()] in milliseconds, [tz] the offset of local time from
    UTC in minutes, [random] the value of [Math.floor(Math.random() * 1000)].
    A handler that reads the clock more than once ([Date.now()] for an id,
    [new Date()] for a timestamp) gets [now] each time. *)
Record Env := mkEnv { now : Z; tz : Z; random : Z }.

(** [new Date().getSeconds()], [getMinutes()] and [getHours()] in local time. *)
Definition getSeconds (e : Env) : Z := (now e / 1000) mod 60.
Definition getMinutes (e : Env) : Z := (now e / 60000 + tz e) mod 60.
Definition getHours (e : Env) : Z := ((now e / 60000 + tz e) / 60) mod 24.

(** ** Component state *)

(** The element [messagesEndRef.current?.parentElement] with the measures the
    scroll code reads: the column that holds the messages. *)
Record Container := mkContainer {
  scrollTop : Z;
  scrollHeight : Z;
  clientHeight : Z
}.

(** Delayed callbacks with the values they close over. *)
Inductive Callback :=
| TypingOn (isMounted : bool) (respondingUser : User.t)
| Respond (isMounted : bool) (currentUser : User.t) (messages : list Message.t)
    (respondingUser : User.t) (reactionUser : option User.t)
| React (isMounted : bool) (currentUser : User.t) (messages : list Message.t)
    (reactionUser : option User.t)
| RestoreScroll (chatContainer : bool) (prevScrollPosition prevScrollHeight : Z)
| ScrollToEnd
| LogoutCommit.

Record State := mkState {
  isMounted : bool;
  currentUser : option User.t;
  users : list User.t;
  messages : list Message.t;
  isTyping : bool;
  typingTimeout : option Z;
  showLoginModal : bool;
  showSettingsModal : bool;
  searchResults : list Message.t;
  currentSearchIndex : Z;
  lastStatusUpdateRef : Z;
  statusAnimationRef : option (User.t * User.Status);
  chatContainer : option Container;
  timers : list (Z * Callback)
}.

(** The state before the first render: the [useState] and [useRef] initial
    values. *)
Definition initialState : State :=
  mkState false None [] [] false None true false [] (-1) 0 None None [].

Definition setCurrentUser (f : option User.t -> option User.t) (st : State) : State :=
  mkState (isMounted st) (f (currentUser st)) (users st) (messages st) (isTyping st)
    (typingTimeout st) (showLoginModal st) (showSettingsModal st) (searchResults st)
    (currentSearchIndex st) (lastStatusUpdateRef st) (statusAnimationRef st)
    (chatContainer st) (timers st).

Definition setUsers (f : list User.t -> list User.t) (st : State) : State :=
  mkState (isMounted st) (currentUser st) (f (users st)) (messages st) (isTyping st)
    (typingTimeout st) (showLoginModal st) (showSettingsModal st) (searchResults st)
    (currentSearchIndex st) (lastStatusUpdateRef st) (statusAnimationRef st)
    (chatContainer st) (timers st).

Definition setMessages (f : list Message.t -> list Message.t) (st : State) : State :=
  mkState (isMounted st) (currentUser st) (users st) (f (messages st)) (isTyping st)
    (typingTimeout st) (showLoginModal st) (showSettingsModal st) (searchResults st)
    (currentSearchIndex st) (lastStatusUpdateRef st) (statusAnimationRef st)
    (chatContainer st) (timers st).

Definition setIsMounted (b : bool) (st : State) : State :=
  mkState b (currentUser st) (users st) (messages st) (isTyping st)
    (typingTimeout st) (showLoginModal st) (showSettingsModal st) (searchResults st)
    (currentSearchIndex st) (lastStatusUpdateRef st) (statusAnimationRef st)
    (chatContainer st) (timers st).

Definition setIsTyping (b : bool) (st : State) : State :=
  mkState (isMounted st) (currentUser st) (users st) (messages st) b
    (typingTimeout st) (showLoginModal st) (showSettingsModal st) (searchResults st)
    (currentSearchIndex st) (lastStatusUpdateRef st) (statusAnimationRef st)
    (chatContainer st) (timers st).

Definition setTypingTimeout (t : option Z) (st : State) : State :=
  mkState (isMounted st) (currentUser st) (users st) (messages st) (isTyping st)
    t (showLoginModal st) (showSettingsModal st) (searchResults st)
    (currentSearchIndex st) (lastStatusUpdateRef st) (statusAnimationRef st)
    (chatContainer st) (timers st).

Definition setShowLoginModal (b : bool) (st : State) : State :=
  mkState (isMounted st) (currentUser st) (users st) (messages st) (isTyping st)
    (typingTimeout st) b (showSettingsModal st) (searchResults st)
    (currentSearchIndex st) (lastStatusUpdateRef st) (statusAnimationRef st)
    (chatContainer st) (timers st).

Definition setShowSettingsModal (b : bool) (st : State) : State :=
  mkState (isMounted st) (currentUser st) (users st) (messages st) (isTyping st)
    (typingTimeout st) (showLoginModal st) b (searchResults st)
    (currentSearchIndex st) (lastStatusUpdateRef st) (statusAnimationRef st)
    (chatContainer st) (timers st).

Definition setSearchResults (r : list Message.t) (st : State) : State :=
  mkState (isMounted st) (currentUser st) (users st) (messages st) (isTyping st)
    (typingTimeout st) (showLoginModal st) (showSettingsModal st) r
    (currentSearchIndex st) (lastStatusUpdateRef st) (statusAnimationRef st)
    (chatContainer st) (timers st).

Definition setCurrentSearchIndex (i : Z) (st : State) : State :=
  mkState (isMounted st) (currentUser st) (users st) (messages st) (isTyping st)
    (typingTimeout st) (showLoginModal st) (showSettingsModal st) (searchResults st)
    i (lastStatusUpdateRef st) (statusAnimationRef st)
    (chatContainer st) (timers st).

Definition setLastStatusUpdateRef (t : Z) (st : State) : State :=
  mkState (isMounted st) (currentUser st) (users st) (messages st) (isTyping st)
    (typingTimeout st) (showLoginModal st) (showSettingsModal st) (searchResults st)
    (currentSearchIndex st) t (statusAnimationRef st)
    (chatContainer st) (timers st).

Definition setStatusAnimationRef (f : option (User.t * User.Status)) (st : State) : State :=
  mkState (isMounted st) (currentUser st) (users st) (messages st) (isTyping st)
    (typingTimeout st) (showLoginModal st) (showSettingsModal st) (searchResults st)
    (currentSearchIndex st) (lastStatusUpdateRef st) f
    (chatContainer st) (timers st).

Definition setChatContainer (c : option Container) (st : State) : State :=
  mkState (isMounted st) (currentUser st) (users st) (messages st) (isTyping st)
    (typingTimeout st) (showLoginModal st) (showSettingsModal st) (searchResults st)
    (currentSearchIndex st) (lastStatusUpdateRef st) (statusAnimationRef st)
    c (timers st).

Definition setTimers (f : list (Z * Callback) -> list (Z * Callback)) (st : State) : State :=
  mkState (isMounted st) (currentUser st) (users st) (messages st) (isTyping st)
    (typingTimeout st) (showLoginModal st) (showSettingsModal st) (searchResults st)
    (currentSearchIndex st) (lastStatusUpdateRef st) (statusAnimationRef st)
    (chatContainer st) (f (timers st)).

(** [setTimeout(cb, delay)] and [requestAnimationFrame(cb)] (delay 0): the
    callback joins the queue with the time from which it may run. *)
Definition setTimeout (e : Env) (delay : Z) (cb : Callback) (st : State) : State :=
  setTimers (fun q => q ++ [(now e + delay, cb)]) st.

(** The bindings of one render of [ChatApp] that its callbacks close over.
    [reactionUser] is the [currentUser] binding inside [handleEmojiReaction],
    whose dependency list is empty: it is the binding of the render in which
    that callback was created, not necessarily the one of this render. *)
Record Scope := mkScope {
  sc_isMounted : bool;
  sc_currentUser : option User.t;
  sc_users : list User.t;
  sc_messages : list Message.t;
  sc_typingTimeout : option Z;
  sc_reactionUser : option User.t
}.

(** The scope of the render that shows state [st]. *)
Definition scopeOf (reactionUser : option User.t) (st : State) : Scope :=
  mkScope (isMounted st) (currentUser st) (users st) (messages st)
    (typingTimeout st) reactionUser.

(** The [currentUser] that [handleEmojiReaction] closes over in the running
    component: the dependency list of its [useCallback] is empty, so every
    render gets the callback that the first render made, and the
    [currentUser] of the first render is the initial value of its
    [useState]. *)
Definition closedOverUser : option User.t := currentUser initialState.

(** ** Roster store *)

Definition updateUserTypingStatus (userId : string) (isTyping : bool) (st : State) : State :=
  setUsers (map (fun user =>
    if decide (User.id user = userId) then User.setIsTyping isTyping user else user)) st.

Fixpoint replaceWhiteSpaceRuns (inRun : bool) (s : string) : string :=
  match s with
  | EmptyString => EmptyString
  | String c s' =>
      if Js.isWhiteSpace c
      then (if inRun then replaceWhiteSpaceRuns true s'
            else String "-"%char (replaceWhiteSpaceRuns true s'))
      else String c (replaceWhiteSpaceRuns false s')
  end.

(** [handleLoginSubmit]; [\s+] and [name.length] as they are for an ASCII
    name. *)
Definition handleLoginSubmit (sc : Scope) (e : Env) (name : string) (st : State) : State :=
  if negb (sc_isMounted sc) then st
  else
    let userId :=
      "user-" +:+ replaceWhiteSpaceRuns false (Js.toLowerCase name) +:+ "-"
      +:+ Js.ofNumber (now e) in
    let avatarIndex := Z.of_nat (String.length name) mod 60 in
    let newUser :=
      User.mk userId name
        ("https://randomuser.me/api/portraits/men/" +:+ Js.ofNumber avatarIndex +:+ ".jpg")
        User.online None false in
    setShowLoginModal false
      (setUsers (fun prevUsers => prevUsers ++ [newUser])
        (setCurrentUser (fun _ => Some newUser) st)).

(** [LoginInput.handleLogin], with [onLogin = handleLoginSubmit]. *)
Definition handleLogin (sc : Scope) (e : Env) (localLoginName : string) (st : State) : State :=
  if Js.truthy (Js.trim localLoginName)
  then handleLoginSubmit sc e (Js.trim localLoginName) st
  else st.

(** [handleLogout]; the earlier revision clears the user at once, which is
    this one followed by its timer without delay. *)
Definition handleLogout (e : Env) (st : State) : State :=
  setTimeout e 150 LogoutCommit (setShowSettingsModal false st).

Definition changeUserStatus (sc : Scope) (e : Env) (status : User.Status) (st : State) : State :=
  match sc_currentUser sc with
  | None => st
  | Some currentUser =>
      if decide (User.status currentUser = status) then st
      else if now e - lastStatusUpdateRef st <? 300 then st
      else
        (* cancelAnimationFrame of the pending frame, then a new request *)
        setStatusAnimationRef (Some (currentUser, status))
          (setLastStatusUpdateRef (now e) st)
  end.

(** The animation frame requested by [changeUserStatus]. *)
Definition statusFrame (st : State) : State :=
  match statusAnimationRef st with
  | None => st
  | Some (currentUser, status) =>
      setStatusAnimationRef None
        (setUsers (map (fun user =>
           if decide (User.id user = User.id currentUser)
           then User.setStatus status user else user))
          (setCurrentUser (fun prev =>
             match prev with
             | None => None
             | Some p => Some (User.setStatus status p)
             end) st))
  end.

(** ** Message store *)

(** [emojis], as [ChatApp.tsx] has the table; the other revision holds the
    same six entries with their bytes re-encoded. *)
Definition emojis : list string := ["👍"; "❤️"; "😂"; "😮"; "😢"; "😡"].

Definition responses : list string :=
  [ "That's interesting! Tell me more.";
    "I agree with your point.";
    "I'm not sure I follow. Can you explain?";
    "Great idea!";
    "Let's discuss this further in the meeting tomorrow.";
    "I'll check with the team and get back to you.";
    "Thanks for the update!";
    "Could you share the documentation?" ].

(** The reaction toggle inside [handleEmojiReaction]: a copy of the map in
    which the entry of [userId] is deleted when it is [emoji] and set to
    [emoji] otherwise.  [MessageComponent.handleEmojiClick] applies the same
    toggle to the copy of the map it displays. *)
Definition toggleReaction (userId emoji : string) (reactions : gmap string string)
  : gmap string string :=
  if decide (reactions !! userId = Some emoji)
  then delete userId reactions
  else <[userId := emoji]> reactions.

Definition reactTo (userId messageId emoji : string) (message : Message.t) : Message.t :=
  if decide (Message.id message = messageId)
  then Message.setReactions (toggleReaction userId emoji (Message.reactions message)) message
  else message.

Definition handleEmojiReaction (currentUser : option User.t) (e : Env)
    (messageId emoji : string) (st : State) : State :=
  match currentUser with
  | None => st
  | Some currentUser =>
      let prevScrollPosition := from_option scrollTop 0 (chatContainer st) in
      let prevScrollHeight := from_option scrollHeight 0 (chatContainer st) in
      let restoreScroll :=
        RestoreScroll (bool_decide (is_Some (chatContainer st)))
          prevScrollPosition prevScrollHeight in
      setTimeout e 100 restoreScroll
        (setTimeout e 50 restoreScroll
          (setTimeout e 10 restoreScroll
            (setTimeout e 0 restoreScroll
              (setMessages (map (reactTo (User.id currentUser) messageId emoji)) st))))
  end.

(** [restoreScroll], the callback of the four timers; [container] tells
    whether the [chatContainer] it closed over was an element.  The
    assignment to [scrollTop] is kept as it is written; what the element
    reports afterwards is up to the browser. *)
Definition restoreScroll (container : bool) (prevScrollPosition prevScrollHeight : Z)
    (st : State) : State :=
  match container, chatContainer st with
  | true, Some c =>
      let newScrollHeight := scrollHeight c in
      let heightDiff := newScrollHeight - prevScrollHeight in
      setChatContainer
        (Some (mkContainer (prevScrollPosition + heightDiff) (scrollHeight c) (clientHeight c)))
        st
  | _, _ => st
  end.

(** What a call hands back to its caller: every handler of [ChatApp] returns
    [undefined]; [Threw] is an exception reaching the caller. *)
Inductive Outcome := Returned | Threw (error : string).

(** [scrollToBottom]: a smooth scroll to the end, on the next frame. *)
Definition scrollToBottom (e : Env) (st : State) : State :=
  setTimeout e 0 ScrollToEnd st.

(** ** Response simulator *)

(** The candidates of [simulateResponse]: [users.filter(...)], in roster order. *)
Definition respondingUsers (currentUser : User.t) (users : list User.t) : list User.t :=
  filter (fun user =>
    User.id user <> User.id currentUser /\ User.status user = User.online) users.

Definition simulateResponse (sc : Scope) (e : Env) (st : State) : State :=
  let shouldRespond := bool_decide (getSeconds e mod 3 = 0) in
  match sc_currentUser sc with
  | None => st
  | Some currentUser =>
      if negb (sc_isMounted sc) || negb shouldRespond then st
      else
        let respondingUsers := respondingUsers currentUser (sc_users sc) in
        if decide (length respondingUsers = 0%nat) then st
        else
          let respondingUserIndex := getMinutes e mod Z.of_nat (length respondingUsers) in
          match respondingUsers !! Z.to_nat respondingUserIndex with
          | None => st
          | Some respondingUser =>
              setTimeout e 3000
                (Respond (sc_isMounted sc) currentUser (sc_messages sc) respondingUser
                   (sc_reactionUser sc))
                (setTimeout e 1000 (TypingOn (sc_isMounted sc) respondingUser) st)
          end
  end.

(** ** Sending *)

Definition handleSendMessage (sc : Scope) (e : Env) (messageText : string) (st : State)
  : Outcome * State :=
  match sc_currentUser sc with
  | None => (Returned, st)
  | Some currentUser =>
      if negb (sc_isMounted sc) then (Returned, st)
      else
        let messageId :=
          "msg-" +:+ Js.ofNumber (now e) +:+ "-" +:+ Js.ofNumber (random e) in
        let newMessage :=
          Message.mk messageId (User.id currentUser) messageText (now e) ∅ Message.sent in
        let st1 := setMessages (fun prevMessages => prevMessages ++ [newMessage]) st in
        let st2 :=
          match sc_typingTimeout sc with
          | Some _ => setTypingTimeout None st1
          | None => st1
          end in
        let st3 := setIsTyping false st2 in
        let st4 := updateUserTypingStatus (User.id currentUser) false st3 in
        let st5 := scrollToBottom e st4 in
        (Returned, simulateResponse sc e st5)
  end.

Module ChatInput.

(** Local state of the [ChatInput] component. *)
Record t := mk {
  localInputMessage : string;
  localIsTyping : bool;
  localTypingTimeoutRef : option Z
}.

(** [ChatInput.handleSendMessage], with [onSendMessage = handleSendMessage]
    and the [currentUser] prop of the same render.  Clearing the local typing
    timer leaves [None] in [localTypingTimeoutRef]. *)
Definition handleSendMessage (sc : Scope) (e : Env) (ci : t) (st : State)
  : Outcome * (t * State) :=
  if Js.truthy (Js.trim (localInputMessage ci)) && bool_decide (is_Some (sc_currentUser sc))
  then
    let '(o, st') := handleSendMessage sc e (localInputMessage ci) st in
    (o, (mk "" false None, st'))
  else (Returned, (ci, st)).

End ChatInput.

(** [send text]: the user has typed [text] in the input and presses Send. *)
Definition send (sc : Scope) (e : Env) (text : string) (st : State) : Outcome * State :=
  let '(o, (_, st')) := ChatInput.handleSendMessage sc e (ChatInput.mk text true None) st in
  (o, st').

(** ** The reactions a message shows *)

Module MessageComponent.

(** Local state of a [MessageComponent]: whether its emoji picker is open,
    and [localReactions], the copy of the reaction map that it shows. *)
Record t := mk {
  isEmojiPickerActive : bool;
  localReactions : gmap string string
}.

(** The state of the first render for [initialMessage]. *)
Definition init (initialMessage : Message.t) : t :=
  mk false (Message.reactions initialMessage).

(** [handleEmojiClick]: [currentUser] is the prop of this render,
    [reactionUser] the [currentUser] inside the [handleEmojiReaction] prop. *)
Definition handleEmojiClick (currentUser reactionUser : option User.t) (e : Env)
    (initialMessage : Message.t) (emoji : string) (mc : t) (st : State) : t * State :=
  match currentUser with
  | None => (mc, st)
  | Some currentUser =>
      (mk false (toggleReaction (User.id currentUser) emoji (localReactions mc)),
       handleEmojiReaction reactionUser e (Message.id initialMessage) emoji st)
  end.

End MessageComponent.

(** ** Delayed callbacks *)

Definition fire (e : Env) (cb : Callback) (st : State) : State :=
  match cb with
  | TypingOn isMounted respondingUser =>
      if negb isMounted then st
      else updateUserTypingStatus (User.id respondingUser) true st
  | Respond isMounted currentUser messages respondingUser reactionUser =>
      if negb isMounted then st
      else
        let st1 := updateUserTypingStatus (User.id respondingUser) false st in
        let responseIndex := (length messages mod length responses)%nat in
        let responseText := default "" (responses !! responseIndex) in
        let newMessage :=
          Message.mk ("msg-response-" +:+ Js.ofNumber (now e)) (User.id respondingUser)
            responseText (now e) ∅ Message.sent in
        let st2 := setMessages (fun prevMessages => prevMessages ++ [newMessage]) st1 in
        if decide ((length messages mod 3)%nat = 0%nat)
        then setTimeout e 1500 (React isMounted currentUser messages reactionUser) st2
        else st2
  | React isMounted currentUser messages reactionUser =>
      if negb isMounted then st
      else
        let lastMessages := reverse messages in
        match List.find (fun msg =>
                bool_decide (Message.senderId msg = User.id currentUser)) lastMessages with
        | Some userMessage =>
            (* [userMessage.text.length], as it is for ASCII text *)
            let emojiIndex :=
              (String.length (Message.text userMessage) mod length emojis)%nat in
            handleEmojiReaction reactionUser e (Message.id userMessage)
              (default "" (emojis !! emojiIndex)) st
        | None => st
        end
  | RestoreScroll container prevScrollPosition prevScrollHeight =>
      restoreScroll container prevScrollPosition prevScrollHeight st
  | ScrollToEnd =>
      (* [messagesEndRef.current.scrollIntoView(...)]: no state of the
         component changes *)
      st
  | LogoutCommit =>
      setShowLoginModal true (setCurrentUser (fun _ => None) st)
  end.

(** ** Search *)

Definition performSearch (sc : Scope) (query : string) (st : State) : State :=
  if negb (Js.truthy (Js.trim query))
  then setCurrentSearchIndex (-1) (setSearchResults [] st)
  else
    let results :=
      List.filter (fun message =>
        Js.includes (Js.toLowerCase (Message.text message)) (Js.toLowerCase query))
        (sc_messages sc) in
    setCurrentSearchIndex (if (0 <? Z.of_nat (length results)) then 0 else -1)
      (setSearchResults results st).

(** ** Seed data and the session as a transition system *)

(** [mockUsers] and [mockMessages]; [t0] is [Date.now()] when they are built. *)
Definition mockUsers (t0 : Z) : list User.t :=
  [ User.mk "user1" "Alex Johnson" "https://randomuser.me/api/portraits/men/32.jpg"
      User.online None false;
    User.mk "user2" "Samantha Lee" "https://randomuser.me/api/portraits/women/44.jpg"
      User.online None false;
    User.mk "user3" "Michael Chen" "https://randomuser.me/api/portraits/men/59.jpg"
      User.brb None false;
    User.mk "user4" "Jessica Taylor" "https://randomuser.me/api/portraits/women/16.jpg"
      User.busy None false;
    User.mk "user5" "David Wilson" "https://randomuser.me/api/portraits/men/7.jpg"
      User.offline (Some (t0 - 3600000)) false ].

Definition mockMessages (t0 : Z) : list Message.t :=
  [ Message.mk "msg1" "user1" "Hey everyone! How's it going?" (t0 - 10800000)
      (<["user2" := "👍"]> (<["user4" := "❤️"]> ∅)) Message.sent;
    Message.mk "msg2" "user2" "Pretty good! Working on that new project. What about you?"
      (t0 - 9000000) ∅ Message.sent;
    Message.mk "msg3" "user3" "I'm just taking a quick break. brb in 10 minutes!"
      (t0 - 7200000) (<["user1" := "👍"]> ∅) Message.sent;
    Message.mk "msg4" "user1" "No worries, take your time!" (t0 - 6480000) ∅ Message.sent;
    Message.mk "msg5" "user4" "Hey can someone help me with the new API documentation?"
      (t0 - 5400000) ∅ Message.sent;
    Message.mk "msg6" "user2" "I can help! Give me a sec to find my notes." (t0 - 4320000)
      (<["user4" := "🙏"]> ∅) Message.sent;
    Message.mk "msg7" "user1"
      "Has anyone seen the latest deployment? Looks like there might be an issue with the authentication module."
      (t0 - 3600000) (<["user2" := "😮"]> ∅) Message.sent;
    Message.mk "msg8" "user4"
      "I'm checking it now. Will update everyone in a few minutes when I know more."
      (t0 - 1800000) (<["user1" := "👍"]> (<["user2" := "👍"]> ∅)) Message.sent ].

(** The effects after the first render: [setIsMounted(true)], then the seeding
    of roster and log. *)
Definition mount (e : Env) (st : State) : State :=
  setMessages (fun _ => mockMessages (now e))
    (setUsers (fun _ => mockUsers (now e)) (setIsMounted true st)).

(** What can happen to the component: user input, a timer or a frame
    running, the viewport changing its measures. *)
Inductive Event :=
| Mount
| Login (localLoginName : string)
| Logout
| Send (text : string)
| EmojiClick (messageId emoji : string)
| ChangeStatus (status : User.Status)
| AnimationFrame
| Timer (i : nat)
| Search (query : string)
| Viewport (c : option Container).

(** One event at clock reading [e].  [reactionUser] is the [currentUser] seen
    by [handleEmojiReaction].  [None]: the event cannot happen (the component
    mounts once; a timer runs once, no earlier than its delay). *)
Definition apply (reactionUser : option User.t) (e : Env) (ev : Event) (st : State)
  : option State :=
  let sc := scopeOf reactionUser st in
  match ev with
  | Mount => if isMounted st then None else Some (mount e st)
  | Login localLoginName => Some (handleLogin sc e localLoginName st)
  | Logout => Some (handleLogout e st)
  | Send text => Some (snd (send sc e text st))
  | EmojiClick messageId emoji =>
      (* [MessageComponent.handleEmojiClick], what it does to this state *)
      match currentUser st with
      | None => Some st
      | Some _ => Some (handleEmojiReaction reactionUser e messageId emoji st)
      end
  | ChangeStatus status => Some (changeUserStatus sc e status st)
  | AnimationFrame => Some (statusFrame st)
  | Timer i =>
      match timers st !! i with
      | Some (due, cb) =>
          if due <=? now e then Some (fire e cb (setTimers (delete i) st)) else None
      | None => None
      end
  | Search query => Some (performSearch sc query st)
  | Viewport c => Some (setChatContainer c st)
  end.

(** A run of events under a clock that never goes back; [clock] is the last
    reading. *)
Fixpoint run (reactionUser : option User.t) (evs : list (Env * Event)) (clock : Z)
    (st : State) : option State :=
  match evs with
  | [] => Some st
  | (e, ev) :: evs' =>
      if (clock <=? now e) && (0 <=? random e) && (random e <? 1000)
      then
        match apply reactionUser e ev st with
        | Some st' => run reactionUser evs' (now e) st'
        | None => None
        end
      else None
  end.

Definition reachable (reactionUser : option User.t) (st : State) : Prop :=
  exists evs, run reactionUser evs 0 initialState = Some st.

(** ** Sample sessions *)

(** Clock readings on 14 November 2023 (UTC): 22:13:21, and every second
    after it that is used below. *)
Definition at_ (ms : Z) : Env := mkEnv (1700000001000 + ms) 0 7.

(** Dana logs in one second after the component mounted. *)
Definition danaSession : State :=
  default initialState
    (run None [(at_ 0, Mount); (at_ 1000, Login "Dana")] 0 initialState).

Definition dana : User.t :=
  User.mk "user-dana-1700000002000" "Dana"
    "https://randomuser.me/api/portraits/men/4.jpg" User.online None false.

(** The reaction map a message is left with when the same toggle ran twice. *)
Definition toggledTwice (userId emoji : string) (reactions : gmap string string)
  : gmap string string :=
  match reactions !! userId with
  | Some held => if decide (held = emoji) then reactions else delete userId reactions
  | None => reactions
  end.

(** The minute of the day in local time, 0 to 1439. *)
Definition minuteOfDay (e : Env) : Z := getHours e * 60 + getMinutes e.

(** Six people use the page one after the other; each but the last logs out
    (the roster keeps them, online).  Dana is the sixth. *)
Definition crowdedEvents : list (Env * Event) :=
  [ (at_ 0, Mount);
    (at_ 1000, Login "Ann"); (at_ 2000, Logout); (at_ 2150, Timer 0%nat);
    (at_ 3000, Login "Bob"); (at_ 4000, Logout); (at_ 4150, Timer 0%nat);
    (at_ 5000, Login "Cyd"); (at_ 6000, Logout); (at_ 6150, Timer 0%nat);
    (at_ 7000, Login "Dee"); (at_ 8000, Logout); (at_ 8150, Timer 0%nat);
    (at_ 9000, Login "Eve"); (at_ 10000, Logout); (at_ 10150, Timer 0%nat);
    (at_ 11000, Login "Dana") ].

Definition crowdedSession : State :=
  default initialState (run None crowdedEvents 0 initialState).

(** Only white space (the empty text included). *)
Fixpoint onlyWhiteSpace (s : string) : bool :=
  match s with
  | EmptyString => true
  | String c s' => Js.isWhiteSpace c && onlyWhiteSpace s'
  end.

(** The first character of [s], if there is one, is not white space; the
    same for the last one. *)
Definition noLeadingWhiteSpace (s : string) : bool :=
  match s with
  | EmptyString => true
  | String c _ => negb (Js.isWhiteSpace c)
  end.

Definition noTrailingWhiteSpace (s : string) : bool :=
  noLeadingWhiteSpace (String.rev s).






(** The seeded message [msg2], which has no reactions. *)
Definition msg2 : Message.t :=
  Message.mk "msg2" "user2" "Pretty good! Working on that new project. What about you?"
    (now (at_ 0) - 9000000) ∅ Message.sent.

(** The callbacks of the response simulator, and the [isMounted] flag each of
    them closed over. *)
Definition simulated (cb : Callback) : bool :=
  match cb with
  | TypingOn _ _ | Respond _ _ _ _ _ | React _ _ _ _ => true
  | _ => false
  end.

Definition mountedFlag (cb : Callback) : bool :=
  match cb with
  | TypingOn m _ | Respond m _ _ _ _ | React m _ _ _ => m
  | _ => false
  end.

(** Dana sends "hi" at 22:13:24 (the simulator answers: Samantha Lee will
    reply), then logs out; the logout is complete 350 ms after the send.  The
    typing callback of the simulator runs 1000 ms after the send, and its
    reply callback is still pending. *)
Definition loggedOutEvents : list (Env * Event) :=
  [ (at_ 0, Mount); (at_ 1000, Login "Dana");
    (at_ 3000, Send "hi"); (at_ 3016, Timer 0%nat);
    (at_ 3200, Logout); (at_ 3350, Timer 2%nat);
    (at_ 4000, Timer 0%nat) ].

Definition loggedOutSession : State :=
  default initialState (run None loggedOutEvents 0 initialState).

Definition samantha : User.t :=
  User.mk "user2" "Samantha Lee" "https://randomuser.me/api/portraits/women/44.jpg"
    User.online None false.

(** Dana has sent "hello" (at 22:13:23, no answer from the simulator). *)
Definition helloSession : State :=
  snd (send (scopeOf closedOverUser danaSession) (at_ 2000) "hello" danaSession).

(** Dana sends "hello" at 22:13:23 (no answer) and "hi" at 22:13:24, which
    the simulator answers over a log of nine messages: Samantha Lee types and
    replies, and the reaction step of the cycle, due 1500 ms after the reply,
    is the one timer left. *)
Definition reactionEvents : list (Env * Event) :=
  [ (at_ 0, Mount); (at_ 1000, Login "Dana");
    (at_ 2000, Send "hello"); (at_ 2016, Timer 0%nat);
    (at_ 3000, Send "hi"); (at_ 3016, Timer 0%nat);
    (at_ 4000, Timer 0%nat); (at_ 6000, Timer 0%nat) ].

Definition reactionSession : State :=
  default initialState (run closedOverUser reactionEvents 0 initialState).

(** Identity and creation time of a log entry. *)
Definition key (m : Message.t) : string * Z := (Message.id m, Message.timestamp m).

(** How an earlier log entry [a] stands to a later one [b]: not created
    after it. *)
Definition inOrder (a b : string * Z) : Prop := a.2 <= b.2.

Definition isDigit (c : ascii) : bool :=
  let n := N_of_ascii c in ((48 <=? n) && (n <=? 57))%N.

Fixpoint allDigits (s : string) : bool :=
  match s with
  | EmptyString => true
  | String c s' => isDigit c && allDigits s'
  end.

(** Dana sends "a" and, 900 ms later, "b", both within the second 22:13:24, so
    the simulator answers both.  The page is busy when the first reply is
    due, and the two reply callbacks run one after the other in the same
    millisecond, 100 ms after the second one is due. *)
Definition twinReplyEvents : list (Env * Event) :=
  [ (at_ 0, Mount); (at_ 1000, Login "Dana");
    (at_ 3000, Send "a"); (at_ 3016, Timer 0%nat);
    (at_ 3900, Send "b"); (at_ 3916, Timer 2%nat);
    (at_ 4000, Timer 0%nat); (at_ 4900, Timer 1%nat);
    (at_ 7000, Timer 0%nat); (at_ 7000, Timer 0%nat) ].

Definition twinReplySession : State :=
  default initialState (run None twinReplyEvents 0 initialState).

(** What holds of the log at clock reading [c]: the seeded messages (once the
    component has mounted, at [t0]) followed by the ones made since, each
    created between [t0] and [c], earlier ones [inOrder] with later ones. *)
Definition logInv (c : Z) (st : State) : Prop :=
  0 <= c /\
  exists seeds gen,
    key <$> messages st = seeds ++ gen
    /\ (seeds = [] \/
        exists t0, t0 <= c /\ seeds = key <$> mockMessages t0 /\
                   Forall (fun k => t0 <= k.2) gen)
    /\ Forall (fun k => 0 <= k.2 <= c) gen
    /\ StronglySorted inOrder gen.

(** ** Search navigation *)

Inductive Direction := Prev | Next.

(** [navigateSearch]; [searchResults] and [currentSearchIndex] are the values
    of the render the callback belongs to.  [%] of JavaScript is [Z.rem]. *)
Definition navigateSearch (searchResults : list Message.t) (currentSearchIndex : Z)
    (direction : Direction) (st : State) : State :=
  if decide (length searchResults = 0%nat) then st
  else
    let newIndex :=
      match direction with
      | Next => Z.rem (currentSearchIndex + 1) (Z.of_nat (length searchResults))
      | Prev =>
          let newIndex := currentSearchIndex - 1 in
          if newIndex <? 0 then Z.of_nat (length searchResults) - 1 else newIndex
      end in
    setCurrentSearchIndex newIndex st.

(** [navigate d st]: the user presses the previous or next button. *)
Definition navigate (direction : Direction) (st : State) : State :=
  navigateSearch (searchResults st) (currentSearchIndex st) direction st.

(** The cursor is none (-1) over no results, and the index of a result
    otherwise. *)
Definition cursorOk (st : State) : Prop :=
  (searchResults st = [] /\ currentSearchIndex st = -1)
  \/ 0 <= currentSearchIndex st < Z.of_nat (length (searchResults st)).

(** ** Sidebar toggle *)

Module Sidebar.

(** [showSidebar], [lastRenderRef] and the time from which the timer held in
    [throttleTimeoutRef] may run, if that timer has not run yet. *)
Record t := mk {
  showSidebar : bool;
  lastRenderRef : Z;
  pending : option Z
}.

(** [toggleSidebar]: within 300 ms of [lastRenderRef] the pending timer is
    cleared and a new one set; otherwise the sidebar flips at once, and a
    pending timer is left alone. *)
Definition toggleSidebar (e : Env) (s : t) : t :=
  if now e - lastRenderRef s <? 300
  then mk (showSidebar s) (lastRenderRef s) (Some (now e + 300))
  else mk (negb (showSidebar s)) (now e) (pending s).

(** The timer set by [toggleSidebar] runs at clock reading [e]. *)
Definition timeout (e : Env) (s : t) : t :=
  match pending s with
  | Some due => if due <=? now e then mk (negb (showSidebar s)) (now e) None else s
  | None => s
  end.

End Sidebar.

(** Dana has searched for "HELP": two results, the cursor on the first. *)
Definition helpSession : State :=
  performSearch (scopeOf None danaSession) "HELP" danaSession.

(** ** What is kept of messages and participants *)

(** A message without its reactions, and a participant without the status
    and the typing flag. *)
Definition core (m : Message.t) : string * string * string * Z * Message.Status :=
  (Message.id m, Message.senderId m, Message.text m, Message.timestamp m, Message.status m).

Definition identity (u : User.t) : string * string * string * option Z :=
  (User.id u, User.name u, User.avatar u, User.lastSeen u).

(** The simulated participant a callback is about. *)
Definition responder (cb : Callback) : option User.t :=
  match cb with
  | TypingOn _ r | Respond _ _ _ r _ => Some r
  | _ => None
  end.

(** Every message, the local participant and every pending simulator callback
    point at a participant of the roster. *)
Definition attributed (st : State) : Prop :=
  (forall m, m ∈ messages st -> Message.senderId m ∈ User.id <$> users st)
  /\ (forall cu, currentUser st = Some cu ->
        isMounted st = true /\ User.id cu ∈ User.id <$> users st)
  /\ (forall t, t ∈ timers st -> mountedFlag t.2 = true ->
        isMounted st = true /\
        forall r, responder t.2 = Some r -> User.id r ∈ User.id <$> users st).

(** [getUserById], over the roster of the render. *)
Definition getUserById (users : list User.t) (id : string) : option User.t :=
  List.find (fun user => bool_decide (User.id user = id)) users.

(** No character of [s] is white space. *)
Fixpoint noWhiteSpace (s : string) : bool :=
  match s with
  | EmptyString => true
  | String c s' => negb (Js.isWhiteSpace c) && noWhiteSpace s'
  end.

(** ** Search input *)

Module SearchInput.

(** Local state of the [SearchInput] component: the text shown, the typing
    flag, and the timer of [typingTimeoutRef] while it has not run, as the
    time from which it may run with the [localSearchQuery] and the [onSearch]
    (the scope of [performSearch]) that its callback closed over. *)
Record t := mk {
  localSearchQuery : string;
  isTyping : bool;
  typingTimeoutRef : option (Z * string * Scope)
}.

(** [handleTyping]; [localSearchQuery] and [onSearch] are those of the render
    the callback belongs to. *)
Definition handleTyping (localSearchQuery : string) (onSearch : Scope) (e : Env) (s : t)
  : t :=
  mk (SearchInput.localSearchQuery s) true (Some (now e + 1000, localSearchQuery, onSearch)).

(** [handleInputChange]: [setLocalSearchQuery(value)], then [handleTyping()]. *)
Definition handleInputChange (localSearchQuery : string) (onSearch : Scope) (e : Env)
    (value : string) (s : t) : t :=
  handleTyping localSearchQuery onSearch e (mk value (isTyping s) (typingTimeoutRef s)).

(** The timer of [handleTyping] runs. *)
Definition typingTimeout (e : Env) (s : t) (st : State) : t * State :=
  match typingTimeoutRef s with
  | Some (due, localSearchQuery, onSearch) =>
      if due <=? now e
      then (mk (SearchInput.localSearchQuery s) false None,
            performSearch onSearch localSearchQuery st)
      else (s, st)
  | None => (s, st)
  end.

(** [handleKeyDown]. *)
Definition handleKeyDown (localSearchQuery : string) (onSearch : Scope) (key : string)
    (s : t) (st : State) : t * State :=
  if decide (key = "Enter")
  then (mk (SearchInput.localSearchQuery s) false None,
        performSearch onSearch localSearchQuery st)
  else (s, st).

(** The user changes the text to [value], in the render that shows [s]. *)
Definition type (onSearch : Scope) (s : t) (key : Env * string) : t :=
  handleInputChange (localSearchQuery s) onSearch key.1 key.2 s.

End SearchInput.

(** ** The callbacks the running component can have pending *)

(** A callback as the running component schedules it: the reaction handler
    inside it closed over the first render, and it is no [restoreScroll],
    which only that handler schedules. *)
Definition asScheduled (cb : Callback) : Prop :=
  match cb with
  | Respond _ _ _ _ reactionUser | React _ _ _ reactionUser =>
      reactionUser = closedOverUser
  | RestoreScroll _ _ _ => False
  | _ => True
  end.

(** Every pending callback is [asScheduled]. *)
Definition quiet (st : State) : Prop :=
  Forall (fun t => asScheduled t.2) (timers st).

(** * Properties *)

Lemma danaSession_currentUser : currentUser danaSession = Some dana.
Proof. vm_compute. reflexivity. Qed.

(** ** Reactions *)

Lemma toggleReaction_twice (userId emoji : string) (r : gmap string string) :
  toggleReaction userId emoji (toggleReaction userId emoji r) = toggledTwice userId emoji r.
Proof.
  unfold toggleReaction, toggledTwice.
  destruct (r !! userId) as [held|] eqn:Hr.
  - destruct (decide (held = emoji)) as [->|Hne].
    + rewrite (decide_True (P := Some emoji = Some emoji)) by done.
      rewrite lookup_delete_eq.
      rewrite (decide_False (P := None = Some emoji)) by done.
      rewrite insert_delete_eq. by apply insert_id.
    + rewrite (decide_False (P := Some held = Some emoji)) by congruence.
      rewrite lookup_insert_eq.
      rewrite (decide_True (P := Some emoji = Some emoji)) by done.
      apply delete_insert_eq.
  - rewrite (decide_False (P := None = Some emoji)) by done.
    rewrite lookup_insert_eq.
    rewrite (decide_True (P := Some emoji = Some emoji)) by done.
    rewrite delete_insert_eq. by apply delete_id.
Qed.

Lemma reactTo_twice (userId messageId emoji : string) (m : Message.t) :
  reactTo userId messageId emoji (reactTo userId messageId emoji m) =
  if decide (Message.id m = messageId)
  then Message.setReactions (toggledTwice userId emoji (Message.reactions m)) m
  else m.
Proof.
  unfold reactTo. destruct (decide (Message.id m = messageId)) as [Hid|Hid].
  - destruct m; simpl in *. rewrite decide_True by done. simpl.
    by rewrite toggleReaction_twice.
  - by rewrite decide_False.
Qed.

Lemma handleEmojiReaction_closedOver (e : Env) (messageId emoji : string) (st : State) :
  handleEmojiReaction closedOverUser e messageId emoji st = st.
Proof. reflexivity. Qed.

Lemma currentUser_handleEmojiReaction (ru : option User.t) (e : Env)
    (messageId emoji : string) (st : State) :
  currentUser (handleEmojiReaction ru e messageId emoji st) = currentUser st.
Proof. by destruct ru. Qed.

Lemma toggledTwice_other (userId emoji k : string) (r : gmap string string) :
  k <> userId -> toggledTwice userId emoji r !! k = r !! k.
Proof.
  intros Hk. unfold toggledTwice.
  destruct (r !! userId) as [held|]; [|done].
  case_decide; [done|]. by rewrite lookup_delete_ne.
Qed.

(** C3 (as amended): the local participant [p] clicks the same emoji twice on
    a message.  The click toggles the reaction map that the message shows
    ([localReactions], the copy held by its component) under the id of [p]:
    after the two clicks that map is [toggledTwice] of the old one.  It is the
    old map again when [p] held no reaction or held the clicked emoji; when
    [p] held another emoji the first click replaced it and the second removed
    it, so the entry of [p] is gone; the entries of all others are kept in
    every case.  The maps of the log go through the same toggle in
    [handleEmojiReaction], under the id of the participant that handler
    closed over, if it closed over one; with the handler of the running
    component the clicks leave the state of [ChatApp] as it is. *)
Theorem toggleReaction_twice_settles (ru : option User.t) (p : User.t) (e1 e2 : Env)
    (initialMessage : Message.t) (emoji : string) (mc : MessageComponent.t) (st : State) :
  currentUser st = Some p ->
  let click1 :=
    MessageComponent.handleEmojiClick (currentUser st) ru e1 initialMessage emoji mc st in
  let click2 :=
    MessageComponent.handleEmojiClick (currentUser click1.2) ru e2 initialMessage emoji
      click1.1 click1.2 in
  let before := MessageComponent.localReactions mc in
  let after := MessageComponent.localReactions click2.1 in
  after = toggledTwice (User.id p) emoji before
  /\ (before !! User.id p = None \/ before !! User.id p = Some emoji -> after = before)
  /\ (forall held, before !! User.id p = Some held -> held <> emoji ->
        after = delete (User.id p) before /\ after !! User.id p = None)
  /\ (forall k, k <> User.id p -> after !! k = before !! k)
  /\ (forall u, ru = Some u ->
        messages click2.2 =
          map (fun m =>
            if decide (Message.id m = Message.id initialMessage)
            then Message.setReactions
                   (toggledTwice (User.id u) emoji (Message.reactions m)) m
            else m) (messages st))
  /\ (ru = closedOverUser -> click2.2 = st).
Proof.
  intros Hp click1 click2 before after.
  assert (Hafter : after = toggledTwice (User.id p) emoji before).
  { subst after click2 click1 before. rewrite Hp. simpl.
    rewrite currentUser_handleEmojiReaction, Hp. simpl.
    apply toggleReaction_twice. }
  split; [exact Hafter|]. rewrite Hafter. split; [|split; [|split; [|split]]].
  - unfold toggledTwice. intros [-> | ->]; [done|]. by rewrite decide_True.
  - intros held Hheld Hne. unfold toggledTwice. rewrite Hheld.
    rewrite decide_False by done. split; [done|]. apply lookup_delete_eq.
  - intros k Hk. by apply toggledTwice_other.
  - intros u ->. subst click2 click1. rewrite Hp. simpl.
    rewrite Hp. simpl. rewrite map_map. apply map_ext. intros m. apply reactTo_twice.
  - intros ->. subst click2 click1. rewrite Hp. simpl. by rewrite Hp.
Qed.

(** Witness for C3: Dana, who holds no reaction on the seeded message [msg2],
    clicks the thumbs-up on it twice; the message shows no reaction, as
    before. *)
Lemma toggleReaction_twice_settles_witness :
  let click1 :=
    MessageComponent.handleEmojiClick (currentUser danaSession) closedOverUser (at_ 4000)
      msg2 "👍" (MessageComponent.init msg2) danaSession in
  let click2 :=
    MessageComponent.handleEmojiClick (currentUser click1.2) closedOverUser (at_ 5000)
      msg2 "👍" click1.1 click1.2 in
  MessageComponent.localReactions click2.1
  = MessageComponent.localReactions (MessageComponent.init msg2).
Proof.
  apply (toggleReaction_twice_settles closedOverUser dana (at_ 4000) (at_ 5000) msg2 "👍"
           (MessageComponent.init msg2) danaSession danaSession_currentUser).
  left. reflexivity.
Defined.

(** C3 (as stated) fails in the running component, for a message of the log
    and the reactions it shows after earlier clicks: Dana has clicked the
    heart on [msg2], which then shows her heart; she clicks the thumbs-up
    twice, and the message shows no reaction of hers instead of the heart. *)
Lemma toggleReaction_twice_counterexample :
  ~ (forall (st : State) (p : User.t) (initialMessage : Message.t) (earlier : list string)
       (emoji : string) (e : Env),
       reachable closedOverUser st -> currentUser st = Some p ->
       initialMessage ∈ messages st ->
       let click x mc :=
         MessageComponent.handleEmojiClick (currentUser st) closedOverUser e initialMessage
           x mc st in
       let mc :=
         foldl (fun mc x => (click x mc).1) (MessageComponent.init initialMessage) earlier in
       MessageComponent.localReactions (click emoji (click emoji mc).1).1
       = MessageComponent.localReactions mc).
Proof.
  intros H.
  specialize (H danaSession dana msg2 ["❤️"] "👍" (at_ 5000)).
  assert (Hmsg2 : msg2 ∈ messages danaSession).
  { apply (list_elem_of_lookup_2 _ 1%nat). vm_compute. reflexivity. }
  assert (Hreach : reachable closedOverUser danaSession)
    by (exists [(at_ 0, Mount); (at_ 1000, Login "Dana")]; vm_compute; reflexivity).
  specialize (H Hreach danaSession_currentUser Hmsg2).
  apply (f_equal (fun r => r !! User.id dana)) in H.
  vm_compute in H. discriminate H.
Qed.

(** ** Frame lemmas: which fields a handler leaves alone *)

Lemma simulateResponse_frame (sc : Scope) (e : Env) (st : State) :
  exists q, simulateResponse sc e st = setTimers (fun _ => q) st.
Proof.
  assert (Hid : st = setTimers (fun _ => timers st) st) by (by destruct st).
  unfold simulateResponse.
  repeat case_match; try (by eexists; apply Hid).
  eexists. unfold setTimeout, setTimers. simpl. reflexivity.
Qed.

Lemma truthy_nonempty (s : string) : Js.truthy s = true <-> s <> "".
Proof. destruct s; simpl; split; congruence. Qed.

(** Running events keeps whatever every single event keeps. *)
Lemma run_invariant (ru : option User.t) (P : Z -> State -> Prop) :
  (forall e ev c st st', c <= now e -> 0 <= random e < 1000 -> P c st ->
     apply ru e ev st = Some st' -> P (now e) st') ->
  forall evs c st st', P c st -> run ru evs c st = Some st' -> exists c', P c' st'.
Proof.
  intros Hstep evs. induction evs as [|[e ev] evs IH]; intros c st st' HP Hrun.
  - simpl in Hrun. injection Hrun as <-. eauto.
  - simpl in Hrun.
    destruct ((c <=? now e) && (0 <=? random e) && (random e <? 1000)) eqn:Hadm;
      [|discriminate].
    destruct (apply ru e ev st) as [st1|] eqn:Happ; [|discriminate].
    apply andb_prop in Hadm as [Hadm Hr2]. apply andb_prop in Hadm as [Hc Hr1].
    eapply IH; [|exact Hrun].
    eapply Hstep; [| |exact HP|exact Happ]; lia.
Qed.

Lemma fire_currentUser (e : Env) (cb : Callback) (st : State) :
  currentUser (fire e cb st) = currentUser st \/ currentUser (fire e cb st) = None.
Proof.
  destruct cb; simpl; unfold restoreScroll, handleEmojiReaction;
    repeat case_match; simpl; auto.
Qed.

Lemma fire_isMounted (e : Env) (cb : Callback) (st : State) :
  isMounted (fire e cb st) = isMounted st.
Proof.
  destruct cb; simpl; unfold restoreScroll, handleEmojiReaction;
    repeat case_match; simpl; auto.
Qed.

Ltac frame_simulateResponse :=
  match goal with
  | |- context [simulateResponse ?sc ?e ?st] =>
      let q := fresh "q" in
      destruct (simulateResponse_frame sc e st) as [q ->]
  end.

Lemma send_frame (sc : Scope) (e : Env) (text : string) (st : State) :
  let st' := snd (send sc e text st) in
  isMounted st' = isMounted st /\ currentUser st' = currentUser st /\
  chatContainer st' = chatContainer st.
Proof.
  unfold send, ChatInput.handleSendMessage, handleSendMessage.
  destruct (Js.truthy _), (sc_currentUser sc) as [cu|], (sc_isMounted sc); simpl; auto.
  frame_simulateResponse.
  destruct (sc_typingTimeout sc); simpl; auto.
Qed.

(** A local participant exists only once the component is mounted:
    [handleLoginSubmit] is the one place that sets it, behind its [isMounted]
    guard, and [isMounted] is never reset. *)
Lemma apply_mounted (ru : option User.t) (e : Env) (ev : Event) (st st' : State) :
  (currentUser st <> None -> isMounted st = true) ->
  apply ru e ev st = Some st' ->
  currentUser st' <> None -> isMounted st' = true.
Proof.
  intros Hinv Happ.
  destruct ev; simpl in Happ.
  - destruct (isMounted st); [discriminate|]. by injection Happ as <-.
  - injection Happ as <-. unfold handleLogin, handleLoginSubmit. simpl.
    repeat case_match; simpl; auto.
    intros _. by destruct (isMounted st).
  - injection Happ as <-. simpl. auto.
  - injection Happ as <-.
    destruct (send_frame (scopeOf ru st) e text st) as (-> & -> & _). auto.
  - destruct (currentUser st) eqn:Hcu; injection Happ as <-; auto.
    destruct ru; simpl; auto.
  - injection Happ as <-. unfold changeUserStatus. simpl.
    repeat case_match; simpl; auto.
  - injection Happ as <-. unfold statusFrame.
    repeat case_match; simpl; auto.
    destruct (currentUser st); simpl; auto.
  - destruct (timers st !! i) as [[due cb]|]; [|discriminate].
    destruct (due <=? now e); [|discriminate]. injection Happ as <-.
    rewrite fire_isMounted. simpl.
    destruct (fire_currentUser e cb (setTimers (delete i) st)) as [-> | ->]; simpl; auto.
  - injection Happ as <-. unfold performSearch. repeat case_match; simpl; auto.
  - injection Happ as <-. simpl. auto.
Qed.

Lemma reachable_mounted (ru : option User.t) (st : State) :
  reachable ru st -> currentUser st <> None -> isMounted st = true.
Proof.
  intros [evs Hrun].
  destruct (run_invariant ru (fun _ s => currentUser s <> None -> isMounted s = true))
    with (evs := evs) (c := 0) (st := initialState) (st' := st) as [_ H]; auto.
  intros e ev c s s' _ _ Hs Happ. by eapply apply_mounted.
Qed.

(** ** Sending *)

(** The state [send] produces when it goes through. *)
Lemma send_accepted (sc : Scope) (e : Env) (text : string) (st : State) (u : User.t) :
  sc_currentUser sc = Some u -> sc_isMounted sc = true -> Js.trim text <> "" ->
  let st' := snd (send sc e text st) in
  fst (send sc e text st) = Returned
  /\ messages st' = messages st ++
       [Message.mk ("msg-" +:+ Js.ofNumber (now e) +:+ "-" +:+ Js.ofNumber (random e))
          (User.id u) text (now e) ∅ Message.sent]
  /\ users st' =
       map (fun user =>
         if decide (User.id user = User.id u) then User.setIsTyping false user else user)
         (users st)
  /\ isTyping st' = false.
Proof.
  intros Hcu Hm Htrim. apply truthy_nonempty in Htrim.
  unfold send, ChatInput.handleSendMessage, handleSendMessage. simpl.
  rewrite Htrim, Hcu, Hm. simpl.
  frame_simulateResponse.
  destruct (sc_typingTimeout sc); simpl; auto.
Qed.

Lemma send_cases (sc : Scope) (e : Env) (text : string) (st : State) :
  send sc e text st = (Returned, st)
  \/ exists cu, sc_currentUser sc = Some cu /\ sc_isMounted sc = true /\ Js.trim text <> "".
Proof.
  unfold send, ChatInput.handleSendMessage, handleSendMessage. simpl.
  destruct (Js.truthy (Js.trim text)) eqn:Htrim; [|left; reflexivity].
  destruct (sc_currentUser sc) as [cu|]; [|left; reflexivity].
  destruct (sc_isMounted sc); [|left; reflexivity].
  right. exists cu. by rewrite <- truthy_nonempty.
Qed.

(** C1: in a reachable state with a local participant, sending a text whose
    trim is not empty appends exactly one message, with that text, status
    [sent] and no reactions, after the unchanged old log; the log is one
    longer, and every roster entry of the sender has [isTyping] cleared. *)
Theorem send_appends_one_message (ru : option User.t) (e : Env) (text : string)
    (st : State) (u : User.t) :
  reachable ru st -> currentUser st = Some u -> Js.trim text <> "" ->
  let st' := snd (send (scopeOf ru st) e text st) in
  exists m,
    messages st' = messages st ++ [m]
    /\ Message.text m = text
    /\ Message.status m = Message.sent
    /\ Message.reactions m = ∅
    /\ Message.senderId m = User.id u
    /\ length (messages st') = S (length (messages st))
    /\ (forall i old, messages st !! i = Some old -> messages st' !! i = Some old)
    /\ users st' =
         map (fun user =>
           if decide (User.id user = User.id u) then User.setIsTyping false user else user)
           (users st)
    /\ (forall user, user ∈ users st' -> User.id user = User.id u ->
          User.isTyping user = false).
Proof.
  intros Hreach Hcu Htrim st'. subst st'.
  assert (Hm : isMounted st = true) by (eapply reachable_mounted; [done|congruence]).
  destruct (send_accepted (scopeOf ru st) e text st u Hcu Hm Htrim)
    as (_ & Hlog & Husers & _).
  eexists. split; [exact Hlog|]. simpl.
  repeat split; [| |exact Husers|].
  - rewrite Hlog, length_app. simpl. lia.
  - intros i old Hi. rewrite Hlog. by apply lookup_app_l_Some.
  - intros user Hin Hid. rewrite Husers in Hin. apply list_elem_of_fmap in Hin as (user0 & -> & _).
    destruct (decide (User.id user0 = User.id u)) as [|Hne]; [done|].
    simpl in Hid. by destruct Hne.
Qed.

Lemma danaSession_reachable : reachable None danaSession.
Proof. exists [(at_ 0, Mount); (at_ 1000, Login "Dana")]. vm_compute. reflexivity. Qed.

(** Witness for C1: Dana sends "hi". *)
Lemma send_appends_one_message_witness :
  exists m,
    messages (snd (send (scopeOf None danaSession) (at_ 2000) "hi" danaSession))
      = messages danaSession ++ [m]
    /\ Message.text m = "hi".
Proof.
  destruct (send_appends_one_message None (at_ 2000) "hi" danaSession dana)
    as (m & Hlog & Htext & _).
  - exact danaSession_reachable.
  - vm_compute. reflexivity.
  - vm_compute. discriminate.
  - exists m. split; assumption.
Defined.

Lemma send_rejected (sc : Scope) (e : Env) (text : string) (st : State) :
  Js.trim text = "" \/ sc_currentUser sc = None ->
  send sc e text st = (Returned, st).
Proof.
  intros Hrej. unfold send, ChatInput.handleSendMessage.
  destruct Hrej as [Hblank | Hnone].
  - simpl. by rewrite Hblank.
  - simpl. rewrite Hnone. by rewrite andb_false_r.
Qed.

(** C2 (as amended): when the text trims to empty, or no local participant is
    set, [send] returns to its caller without reporting anything and the
    whole state is unchanged. *)
Theorem send_rejected_silently (sc : Scope) (e : Env) (text : string) (st : State) :
  Js.trim text = "" \/ sc_currentUser sc = None ->
  send sc e text st = (Returned, st).
Proof. apply send_rejected. Qed.

(** Witness for C2: Dana sends three blanks. *)
Lemma send_rejected_silently_witness :
  send (scopeOf None danaSession) (at_ 2000) "   " danaSession = (Returned, danaSession).
Proof. apply send_rejected_silently. left. vm_compute. reflexivity. Defined.

(** C2 (as stated) fails: no [ValidationError] reaches the caller. *)
Lemma send_validation_error_counterexample :
  ~ (forall (sc : Scope) (e : Env) (text : string) (st : State),
       Js.trim text = "" \/ sc_currentUser sc = None ->
       send sc e text st = (Threw "ValidationError", st)).
Proof.
  intros H.
  specialize (H (scopeOf None danaSession) (at_ 2000) "   " danaSession).
  rewrite send_rejected in H by (left; vm_compute; reflexivity).
  specialize (H (or_introl eq_refl)). discriminate H.
Qed.

(** ** Status throttle *)

(** C5: a status request that comes less than 300 ms after the last accepted
    one, or that asks for the status the participant already has, changes
    nothing at all (nothing is queued); a request for another status that
    comes once 300 ms have passed is accepted: its time becomes the time of
    the last accepted change, and the animation frame it requests commits the
    status to the local participant and to the roster entries with the
    participant's id. *)
Theorem changeUserStatus_throttle (sc : Scope) (e : Env) (status : User.Status)
    (st : State) (cu : User.t) :
  sc_currentUser sc = Some cu ->
  (now e - lastStatusUpdateRef st < 300 -> changeUserStatus sc e status st = st)
  /\ (User.status cu = status -> changeUserStatus sc e status st = st)
  /\ (300 <= now e - lastStatusUpdateRef st -> User.status cu <> status ->
      let st' := changeUserStatus sc e status st in
      lastStatusUpdateRef st' = now e
      /\ statusAnimationRef st' = Some (cu, status)
      /\ currentUser (statusFrame st') = User.setStatus status <$> currentUser st
      /\ users (statusFrame st') =
           map (fun user =>
             if decide (User.id user = User.id cu)
             then User.setStatus status user else user) (users st)
      /\ statusAnimationRef (statusFrame st') = None
      /\ messages (statusFrame st') = messages st).
Proof.
  intros Hcu. unfold changeUserStatus. rewrite Hcu. repeat split.
  - intros Hlt. destruct (decide (User.status cu = status)); [done|].
    apply Z.ltb_lt in Hlt. by rewrite Hlt.
  - intros Heq. by rewrite decide_True.
  - apply Z.ltb_ge in H. rewrite decide_False, H by done. reflexivity.
  - apply Z.ltb_ge in H. rewrite decide_False, H by done. reflexivity.
  - apply Z.ltb_ge in H. rewrite decide_False, H by done.
    unfold statusFrame. simpl. by destruct (currentUser st).
  - apply Z.ltb_ge in H. rewrite decide_False, H by done. reflexivity.
  - apply Z.ltb_ge in H. rewrite decide_False, H by done. reflexivity.
  - apply Z.ltb_ge in H. rewrite decide_False, H by done. reflexivity.
Qed.

(** Witness for C5: Dana asks for [brb] (accepted and committed), then for
    [busy] 100 ms later (dropped), then for [busy] again 400 ms after the
    first request (accepted and committed). *)
Lemma changeUserStatus_throttle_witness :
  let st1 := statusFrame (changeUserStatus (scopeOf None danaSession) (at_ 2000) User.brb
                            danaSession) in
  let st2 := changeUserStatus (scopeOf None st1) (at_ 2100) User.busy st1 in
  let st3 := statusFrame (changeUserStatus (scopeOf None st2) (at_ 2400) User.busy st2) in
  (User.status <$> currentUser st1) = Some User.brb
  /\ st2 = st1
  /\ (User.status <$> currentUser st3) = Some User.busy.
Proof.
  intros st1 st2 st3. split; [|split].
  - destruct (changeUserStatus_throttle (scopeOf None danaSession) (at_ 2000) User.brb
                danaSession dana) as (_ & _ & Hacc); [vm_compute; reflexivity|].
    destruct Hacc as (_ & _ & Hcu & _); [vm_compute; discriminate|vm_compute; discriminate|].
    subst st1. rewrite Hcu. vm_compute. reflexivity.
  - destruct (changeUserStatus_throttle (scopeOf None st1) (at_ 2100) User.busy st1
                (User.setStatus User.brb dana)) as (Hdrop & _); [vm_compute; reflexivity|].
    apply Hdrop. vm_compute. reflexivity.
  - vm_compute. reflexivity.
Defined.

(** ** Response simulator: the decision and the choice of the responder *)

Lemma respondingUsers_spec (cu : User.t) (roster : list User.t) :
  respondingUsers cu roster `sublist_of` roster
  /\ forall user, user ∈ respondingUsers cu roster <->
       (user ∈ roster /\ User.id user <> User.id cu /\ User.status user = User.online).
Proof.
  split.
  - apply sublist_filter.
  - intros user. unfold respondingUsers. rewrite list_elem_of_filter. tauto.
Qed.

(** C6 (as amended): on a send (mounted, local participant [cu]) the
    candidates are the online participants with an id other than that of
    [cu], in roster order; the simulator answers exactly when the second of
    the wall clock is a multiple of 3 and there is a candidate; the responder
    is then the candidate at index [getMinutes mod count] (the minute of the
    hour, 0 to 59), and the typing and reply callbacks are scheduled for it;
    in every other case the call changes nothing. *)
Theorem simulateResponse_decision (sc : Scope) (e : Env) (st : State) (cu : User.t) :
  sc_currentUser sc = Some cu -> sc_isMounted sc = true ->
  let candidates := respondingUsers cu (sc_users sc) in
  candidates `sublist_of` sc_users sc
  /\ (forall user, user ∈ candidates <->
        user ∈ sc_users sc /\ User.id user <> User.id cu /\ User.status user = User.online)
  /\ (getSeconds e mod 3 <> 0 \/ candidates = [] -> simulateResponse sc e st = st)
  /\ (getSeconds e mod 3 = 0 -> candidates <> [] ->
      exists respondingUser,
        candidates !! Z.to_nat (getMinutes e mod Z.of_nat (length candidates))
          = Some respondingUser
        /\ simulateResponse sc e st =
             setTimeout e 3000
               (Respond true cu (sc_messages sc) respondingUser (sc_reactionUser sc))
               (setTimeout e 1000 (TypingOn true respondingUser) st)).
Proof.
  intros Hcu Hm candidates.
  split; [apply respondingUsers_spec|]. split; [apply respondingUsers_spec|].
  unfold simulateResponse. rewrite Hcu, Hm. fold candidates.
  split.
  - intros [Hsec | Hnone].
    + rewrite bool_decide_eq_false_2 by done. reflexivity.
    + destruct (bool_decide (getSeconds e mod 3 = 0)); simpl; [|done].
      rewrite Hnone. reflexivity.
  - intros Hsec Hsome. rewrite bool_decide_eq_true_2 by done. simpl.
    assert (Hlen : length candidates <> 0%nat) by (by destruct candidates).
    rewrite decide_False by done.
    assert (Hlt : (Z.to_nat (getMinutes e mod Z.of_nat (length candidates))
                   < length candidates)%nat).
    { pose proof (Z.mod_pos_bound (getMinutes e) (Z.of_nat (length candidates))). lia. }
    apply lookup_lt_is_Some_2 in Hlt as [r Hr].
    exists r. rewrite Hr. done.
Qed.

(** Witness for C6: Dana sends at 22:13:24; of the two candidates (Alex
    Johnson, Samantha Lee) the one at index 13 mod 2 = 1 answers. *)
Lemma simulateResponse_decision_witness :
  exists respondingUser,
    respondingUsers dana (users danaSession) !! 1%nat = Some respondingUser
    /\ simulateResponse (scopeOf None danaSession) (at_ 3000) danaSession =
         setTimeout (at_ 3000) 3000
           (Respond true dana (messages danaSession) respondingUser None)
           (setTimeout (at_ 3000) 1000 (TypingOn true respondingUser) danaSession).
Proof.
  destruct (simulateResponse_decision (scopeOf None danaSession) (at_ 3000) danaSession dana)
    as (_ & _ & _ & Hanswer).
  - vm_compute. reflexivity.
  - vm_compute. reflexivity.
  - apply Hanswer.
    + vm_compute. reflexivity.
    + vm_compute. discriminate.
Defined.

Lemma crowdedSession_reachable : reachable None crowdedSession.
Proof. exists crowdedEvents. vm_compute. reflexivity. Qed.

Lemma crowdedSession_candidates :
  User.name <$> respondingUsers (default dana (currentUser crowdedSession))
                  (users crowdedSession)
  = ["Alex Johnson"; "Samantha Lee"; "Ann"; "Bob"; "Cyd"; "Dee"; "Eve"].
Proof. vm_compute. reflexivity. Qed.

(** C6 (as stated) fails on the index: with seven candidates at 22:13:33 the
    minute of the day is 1333 and the minute of the hour is 13; the code picks
    the candidate at index 13 mod 7 = 6, not the one at 1333 mod 7 = 3. *)
Lemma simulateResponse_minuteOfDay_counterexample :
  ~ (forall (sc : Scope) (e : Env) (st : State) (cu : User.t),
       sc_currentUser sc = Some cu -> sc_isMounted sc = true ->
       let candidates := respondingUsers cu (sc_users sc) in
       getSeconds e mod 3 = 0 -> candidates <> [] ->
       exists respondingUser,
         candidates !! Z.to_nat (minuteOfDay e mod Z.of_nat (length candidates))
           = Some respondingUser
         /\ simulateResponse sc e st =
              setTimeout e 3000
                (Respond true cu (sc_messages sc) respondingUser (sc_reactionUser sc))
                (setTimeout e 1000 (TypingOn true respondingUser) st)).
Proof.
  intros H.
  destruct (H (scopeOf None crowdedSession) (at_ 12000) crowdedSession
              (default dana (currentUser crowdedSession)))
    as (r & Hr & Hsim).
  - vm_compute. reflexivity.
  - vm_compute. reflexivity.
  - vm_compute. reflexivity.
  - vm_compute. discriminate.
  - vm_compute in Hr. injection Hr as <-.
    apply (f_equal (fun s => snd <$> last (timers s))) in Hsim.
    vm_compute in Hsim. discriminate Hsim.
Qed.

(** ** Text *)

Lemma append_cons (c : ascii) (s t : string) : String c s +:+ t = String c (s +:+ t).
Proof. reflexivity. Qed.

Lemma append_empty_r (s : string) : s +:+ "" = s.
Proof. induction s as [|c s IH]; [done|]. by rewrite append_cons, IH. Qed.

Lemma append_assoc (s t u : string) : (s +:+ t) +:+ u = s +:+ (t +:+ u).
Proof. induction s as [|c s IH]; [done|]. by rewrite !append_cons, IH. Qed.

Lemma rev_app_append (s t : string) : String.rev_app s t = String.rev s +:+ t.
Proof.
  unfold String.rev. revert t.
  induction s as [|c s IH]; intros t; simpl; [done|].
  rewrite IH, (IH (String c "")), append_assoc. reflexivity.
Qed.

Lemma rev_cons (c : ascii) (s : string) : String.rev (String c s) = String.rev s +:+ String c "".
Proof. unfold String.rev at 1. simpl. apply rev_app_append. Qed.

Lemma rev_append (s t : string) : String.rev (s +:+ t) = String.rev t +:+ String.rev s.
Proof.
  induction s as [|c s IH].
  - simpl. by rewrite append_empty_r.
  - by rewrite append_cons, !rev_cons, IH, append_assoc.
Qed.

Lemma rev_involutive (s : string) : String.rev (String.rev s) = s.
Proof.
  induction s as [|c s IH]; [done|].
  by rewrite rev_cons, rev_append, IH.
Qed.

Lemma onlyWhiteSpace_append (s t : string) :
  onlyWhiteSpace (s +:+ t) = onlyWhiteSpace s && onlyWhiteSpace t.
Proof.
  induction s as [|c s IH]; [done|].
  rewrite append_cons. simpl. by rewrite IH, andb_assoc.
Qed.

Lemma onlyWhiteSpace_rev (s : string) : onlyWhiteSpace (String.rev s) = onlyWhiteSpace s.
Proof.
  induction s as [|c s IH]; [done|].
  rewrite rev_cons, onlyWhiteSpace_append, IH. simpl.
  by rewrite andb_true_r, andb_comm.
Qed.

(** [trimStart] drops a prefix of white space and stops at the first
    character that is none. *)
Lemma trimStart_spec (s : string) :
  exists pre, s = pre +:+ Js.trimStart s /\ onlyWhiteSpace pre = true
              /\ noLeadingWhiteSpace (Js.trimStart s) = true.
Proof.
  induction s as [|c s (pre & Hs & Hpre & Hhead)]; [by exists ""|].
  simpl. destruct (Js.isWhiteSpace c) eqn:Hc.
  - exists (String c pre). rewrite append_cons, <- Hs. simpl. by rewrite Hc.
  - exists "". simpl. by rewrite Hc.
Qed.

Lemma trimStart_onlyWhiteSpace (s : string) :
  Js.trimStart s = "" <-> onlyWhiteSpace s = true.
Proof.
  induction s as [|c s IH]; simpl; [done|].
  destruct (Js.isWhiteSpace c); simpl; [done|]. split; discriminate.
Qed.

(** [trimEnd] does the same from the other end. *)
Lemma trimEnd_spec (s : string) :
  exists post, s = Js.trimEnd s +:+ post /\ onlyWhiteSpace post = true
               /\ noTrailingWhiteSpace (Js.trimEnd s) = true.
Proof.
  destruct (trimStart_spec (String.rev s)) as (pre & Hs & Hpre & Hhead).
  exists (String.rev pre). unfold Js.trimEnd, noTrailingWhiteSpace.
  rewrite rev_involutive, onlyWhiteSpace_rev. split; [|done].
  by rewrite <- rev_append, <- Hs, rev_involutive.
Qed.

Lemma noLeadingWhiteSpace_prefix (s t : string) :
  noLeadingWhiteSpace (s +:+ t) = true -> onlyWhiteSpace t = true ->
  noLeadingWhiteSpace s = true.
Proof.
  destruct s as [|c s]; [done|]. by rewrite append_cons.
Qed.

(** [trim]: the text without the white space at its two ends. *)
Lemma trim_spec (s : string) :
  exists pre post,
    s = pre +:+ Js.trim s +:+ post
    /\ onlyWhiteSpace pre = true /\ onlyWhiteSpace post = true
    /\ noLeadingWhiteSpace (Js.trim s) = true
    /\ noTrailingWhiteSpace (Js.trim s) = true.
Proof.
  destruct (trimStart_spec s) as (pre & Hs & Hpre & Hhead).
  destruct (trimEnd_spec (Js.trimStart s)) as (post & Ht & Hpost & Hlast).
  exists pre, post. unfold Js.trim. split; [by rewrite <- Ht|].
  repeat split; [done..| |done].
  rewrite Ht in Hhead. by eapply noLeadingWhiteSpace_prefix.
Qed.

Lemma trim_onlyWhiteSpace (s : string) : Js.trim s = "" <-> onlyWhiteSpace s = true.
Proof.
  split.
  - intros Hs. destruct (trim_spec s) as (pre & post & Heq & Hpre & Hpost & _).
    rewrite Hs in Heq. rewrite Heq. by rewrite !onlyWhiteSpace_append, Hpre, Hpost.
  - intros Hs. apply trimStart_onlyWhiteSpace in Hs. unfold Js.trim. by rewrite Hs.
Qed.





(** ** Search *)









(** ** A click on an emoji and the scroll position *)

(** C8 (code bug), at the failing input: Dana, scrolled up in the log, clicks
    the thumbs-up on [msg2], which showed no reaction.  The message now shows
    hers, so the content changes.  The [handleEmojiReaction] that the click
    calls returns at its first line, whatever the measures of the element it
    would read: the state of the component is what it was, and no
    [restoreScroll] is scheduled (no timer is pending at all), so nothing
    assigns the offset after the content has changed. *)
Theorem emoji_click_schedules_no_restore :
  reachable closedOverUser danaSession
  /\ currentUser danaSession = Some dana
  /\ messages danaSession !! 1%nat = Some msg2
  /\ timers danaSession = []
  /\ (forall (c : option Container) (e : Env),
        let st := setChatContainer c danaSession in
        let click :=
          MessageComponent.handleEmojiClick (currentUser st) closedOverUser e msg2 "👍"
            (MessageComponent.init msg2) st in
        apply closedOverUser e (Viewport c) danaSession = Some st
        /\ MessageComponent.localReactions (MessageComponent.init msg2) !! User.id dana
           = None
        /\ MessageComponent.localReactions click.1 !! User.id dana = Some "👍"
        /\ click.2 = st
        /\ apply closedOverUser e (EmojiClick "msg2" "👍") st = Some st
        /\ timers click.2 = []).
Proof.
  split; [apply danaSession_reachable|].
  repeat split; vm_compute; reflexivity.
Qed.

(** ** Response simulator: the delayed callbacks *)

Lemma loggedOutSession_reachable : reachable None loggedOutSession.
Proof. exists loggedOutEvents. vm_compute. reflexivity. Qed.

(** Samantha is shown typing although Dana has left, and her reply is due. *)
Lemma loggedOutSession_pending :
  currentUser loggedOutSession = None
  /\ (User.isTyping <$> users loggedOutSession !! 1%nat) = Some true
  /\ timers loggedOutSession
     = [(now (at_ 6000), Respond true dana (mockMessages (now (at_ 0))) samantha None)].
Proof. vm_compute. repeat split; reflexivity. Qed.

(** C4 (as amended): a callback of the response simulator tests, when it runs,
    only the [isMounted] flag it closed over, and does nothing when that flag
    is false; it does not look at the local participant of the session, so
    its effect is the same after a logout: the typing callback sets the typing
    flag of the responder, and the reply callback clears it and appends the
    reply. *)
Theorem simulator_callbacks_ignore_logout (e : Env) (cb : Callback) (st : State) :
  simulated cb = true ->
  (mountedFlag cb = false -> fire e cb st = st)
  /\ fire e cb (setCurrentUser (fun _ => None) st)
     = setCurrentUser (fun _ => None) (fire e cb st)
  /\ (forall r, cb = TypingOn true r ->
        fire e cb st = updateUserTypingStatus (User.id r) true st)
  /\ (forall cu msgs r ru, cb = Respond true cu msgs r ru ->
        messages (fire e cb st) = messages st ++
          [Message.mk ("msg-response-" +:+ Js.ofNumber (now e)) (User.id r)
             (default "" (responses !! (length msgs mod length responses)%nat))
             (now e) ∅ Message.sent]
        /\ users (fire e cb st) = users (updateUserTypingStatus (User.id r) false st)).
Proof.
  intros Hsim. repeat split.
  - intros Hflag. destruct cb; simpl in *; try discriminate; by rewrite Hflag.
  - destruct cb; simpl in *; try discriminate.
    + by destruct isMounted0.
    + destruct isMounted0; simpl; [|done]. by case_decide.
    + destruct isMounted0; simpl; [|done].
      destruct (List.find _ _); [|done]. by destruct reactionUser.
  - intros r ->. reflexivity.
  - subst cb. simpl. by case_decide.
  - subst cb. simpl. by case_decide.
Qed.

(** Witness for C4: after Dana's logout the reply callback still appends
    Samantha's reply. *)
Lemma simulator_callbacks_ignore_logout_witness :
  length (messages (fire (at_ 6000)
            (Respond true dana (mockMessages (now (at_ 0))) samantha None)
            loggedOutSession))
  = S (length (messages loggedOutSession)).
Proof.
  destruct (simulator_callbacks_ignore_logout (at_ 6000)
              (Respond true dana (mockMessages (now (at_ 0))) samantha None)
              loggedOutSession) as (_ & _ & _ & Hreply); [reflexivity|].
  destruct (Hreply dana (mockMessages (now (at_ 0))) samantha None) as [Hlog _];
    [reflexivity|].
  rewrite Hlog, length_app. apply Nat.add_1_r.
Defined.

(** C4 (as stated) fails: in a reachable state without local participant a
    pending simulator callback that runs does change roster and log. *)
Lemma simulator_noop_after_logout_counterexample :
  ~ (forall (ru : option User.t) (st : State) (i : nat) (due : Z) (cb : Callback) (e : Env),
       reachable ru st -> timers st !! i = Some (due, cb) -> simulated cb = true ->
       currentUser st = None -> due <= now e ->
       let st' := fire e cb (setTimers (delete i) st) in
       users st' = users st /\ messages st' = messages st).
Proof.
  intros H.
  destruct (H None loggedOutSession 0%nat (now (at_ 6000))
              (Respond true dana (mockMessages (now (at_ 0))) samantha None) (at_ 6000))
    as [_ Hlog].
  - exact loggedOutSession_reachable.
  - vm_compute. reflexivity.
  - reflexivity.
  - vm_compute. reflexivity.
  - vm_compute. discriminate.
  - apply (f_equal length) in Hlog. vm_compute in Hlog. discriminate Hlog.
Qed.

(** ** Who a reaction is recorded for *)

Lemma reactionSession_reachable : reachable closedOverUser reactionSession.
Proof. exists reactionEvents. vm_compute. reflexivity. Qed.

(** C10 (code bug), at the failing input: Dana sends "hello" and then "hi",
    which the simulator answers over a log whose length is a multiple of 3, so
    the cycle has a reaction step; it is the one timer left.  When it runs it
    finds "hello", the last message of Dana's in the log it closed over, and
    calls [handleEmojiReaction] with the id of that message and the emoji at
    index 5; the handler returns at its first line.  The step leaves the
    state as it is but for the timer: the message has no reaction, under
    Dana's id or any other. *)
Theorem simulator_reaction_not_recorded :
  let step := React true dana (messages helloSession) closedOverUser in
  reachable closedOverUser reactionSession
  /\ currentUser reactionSession = Some dana
  /\ timers reactionSession = [(now (at_ 7500), step)]
  /\ (exists own,
        last (messages helloSession) = Some own
        /\ messages reactionSession !! 8%nat = Some own
        /\ Message.senderId own = User.id dana
        /\ Message.text own = "hello"
        /\ Message.reactions own = ∅
        /\ emojis !! (String.length (Message.text own) mod length emojis)%nat = Some "😡"
        /\ fire (at_ 7500) step (setTimers (delete 0%nat) reactionSession)
           = handleEmojiReaction closedOverUser (at_ 7500) (Message.id own) "😡"
               (setTimers (delete 0%nat) reactionSession))
  /\ apply closedOverUser (at_ 7500) (Timer 0%nat) reactionSession
     = Some (setTimers (fun _ => []) reactionSession).
Proof.
  intros step. split; [apply reactionSession_reachable|].
  split; [vm_compute; reflexivity|]. split; [vm_compute; reflexivity|]. split.
  - eexists. split; [vm_compute; reflexivity|].
    repeat split; vm_compute; reflexivity.
  - vm_compute. reflexivity.
Qed.

(** ** Message ids and creation times *)

Lemma allDigits_string_of_uint (d : Decimal.uint) :
  allDigits (NilEmpty.string_of_uint d) = true.
Proof. induction d; simpl; auto. Qed.

Lemma allDigits_ofNumber (n : Z) : allDigits (Js.ofNumber n) = true.
Proof.
  unfold Js.ofNumber, NilZero.string_of_uint.
  destruct (N.to_uint (Z.to_N n)) eqn:Hd; try reflexivity;
    rewrite <- Hd; apply allDigits_string_of_uint.
Qed.

Lemma key_reactTo (userId messageId emoji : string) (m : Message.t) :
  key (reactTo userId messageId emoji m) = key m.
Proof. unfold reactTo. by case_decide. Qed.

Lemma keys_handleEmojiReaction (cu : option User.t) (e : Env) (messageId emoji : string)
    (st : State) :
  key <$> messages (handleEmojiReaction cu e messageId emoji st) = key <$> messages st.
Proof.
  destruct cu as [cu|]; [|done]. simpl.
  rewrite <- list_fmap_compose. apply list_fmap_ext. intros i m _. apply key_reactTo.
Qed.

(** What one event does to ids and creation times: nothing, or the seeding,
    or one entry appended with the clock reading of the event. *)
Lemma apply_keys (ru : option User.t) (e : Env) (ev : Event) (st st' : State) :
  apply ru e ev st = Some st' ->
  key <$> messages st' = key <$> messages st
  \/ key <$> messages st' = key <$> mockMessages (now e)
  \/ exists i, key <$> messages st' = (key <$> messages st) ++ [(i, now e)].
Proof.
  destruct ev; simpl; intros Happ.
  - destruct (isMounted st); [discriminate|]. injection Happ as <-. right. by left.
  - injection Happ as <-. left. unfold handleLogin, handleLoginSubmit.
    repeat case_match; reflexivity.
  - injection Happ as <-. by left.
  - injection Happ as <-.
    destruct (send_cases (scopeOf ru st) e text st) as [-> | (cu & Hcu & Hm & Ht)];
      [by left|].
    destruct (send_accepted (scopeOf ru st) e text st cu Hcu Hm Ht) as (_ & Hlog & _).
    right. right. eexists. by rewrite Hlog, fmap_app.
  - left. destruct (currentUser st); injection Happ as <-; [|done].
    apply keys_handleEmojiReaction.
  - injection Happ as <-. left. unfold changeUserStatus. repeat case_match; reflexivity.
  - injection Happ as <-. left. unfold statusFrame. repeat case_match; reflexivity.
  - destruct (timers st !! i) as [[due cb]|]; [|discriminate].
    destruct (due <=? now e); [|discriminate]. injection Happ as <-.
    destruct cb as [m r | m cu msgs r reactor | m cu msgs reactor | has top height | | ];
      simpl.
    + left. by destruct m.
    + destruct m; simpl; [|by left].
      right. right. eexists.
      case_decide; simpl; by rewrite fmap_app.
    + left. destruct m; simpl; [|done].
      destruct (List.find _ _); [|done]. by rewrite keys_handleEmojiReaction.
    + left. unfold restoreScroll. repeat case_match; reflexivity.
    + left. repeat case_match; reflexivity.
    + by left.
  - injection Happ as <-. left. unfold performSearch. repeat case_match; reflexivity.
  - injection Happ as <-. by left.
Qed.

Lemma StronglySorted_snoc {A} (R : A -> A -> Prop) (l : list A) (x : A) :
  StronglySorted R l -> Forall (fun a => R a x) l -> StronglySorted R (l ++ [x]).
Proof.
  intros Hl Hx. apply StronglySorted_app. split; [|split; [done|]].
  - intros a b Ha Hb. apply list_elem_of_singleton in Hb as ->.
    by apply (proj1 (Forall_forall _ _) Hx).
  - repeat constructor.
Qed.

Lemma StronglySorted_lookup {A} (R : A -> A -> Prop) (l : list A) (i j : nat) (a b : A) :
  StronglySorted R l -> (i < j)%nat -> l !! i = Some a -> l !! j = Some b -> R a b.
Proof.
  intros Hl. revert i j. induction Hl as [|x l Hl IH Hx]; intros i j Hij Hi Hj.
  - discriminate Hi.
  - destruct j as [|j]; [lia|]. simpl in Hj. destruct i as [|i]; simpl in Hi.
    + injection Hi as <-. apply (proj1 (Forall_forall _ _) Hx).
      by eapply list_elem_of_lookup_2.
    + eapply (IH i j); [lia|done..].
Qed.

Lemma logInv_step (ru : option User.t) (e : Env) (ev : Event) (c : Z) (st st' : State) :
  c <= now e -> logInv c st -> apply ru e ev st = Some st' -> logInv (now e) st'.
Proof.
  intros Hc (Hc0 & seeds & gen & Hkeys & Hseeds & Hgen & Hsorted) Happ.
  split; [lia|].
  apply apply_keys in Happ as [-> | [-> | (i & ->)]].
  - exists seeds, gen. split; [done|]. split; [|split; [|done]].
    + destruct Hseeds as [-> | (t0 & Ht0 & -> & Hafter)]; [by left|].
      right. exists t0. split; [lia|done].
    + eapply Forall_impl; [exact Hgen|]. simpl. intros k Ht. lia.
  - exists (key <$> mockMessages (now e)), []. rewrite app_nil_r.
    split; [done|]. split; [|split; constructor].
    right. exists (now e). split; [lia|]. split; [done|constructor].
  - exists seeds, (gen ++ [(i, now e)]). rewrite Hkeys, <- app_assoc.
    split; [done|]. split; [|split].
    + destruct Hseeds as [-> | (t0 & Ht0 & -> & Hafter)]; [by left|].
      right. exists t0. split; [lia|]. split; [done|].
      apply Forall_app. split; [done|]. apply Forall_singleton. simpl. lia.
    + apply Forall_app. split.
      * eapply Forall_impl; [exact Hgen|]. simpl. intros k Ht. lia.
      * apply Forall_singleton. simpl. lia.
    + apply StronglySorted_snoc; [done|].
      eapply Forall_impl; [exact Hgen|]. intros [i' t'] Ht. simpl in Ht.
      unfold inOrder. simpl. lia.
Qed.

Lemma reachable_logInv (ru : option User.t) (st : State) :
  reachable ru st -> exists c, logInv c st.
Proof.
  intros [evs Hrun].
  apply (run_invariant ru logInv) with (evs := evs) (c := 0) (st := initialState);
    [|split; [lia|]|done].
  - intros e ev c s s' Hc _ Hs Happ. by eapply logInv_step.
  - exists [], []. repeat split; [by left|constructor..].
Qed.

Lemma keys_mockMessages (t0 : Z) :
  key <$> mockMessages t0 =
    [ ("msg1", t0 - 10800000); ("msg2", t0 - 9000000); ("msg3", t0 - 7200000);
      ("msg4", t0 - 6480000); ("msg5", t0 - 5400000); ("msg6", t0 - 4320000);
      ("msg7", t0 - 3600000); ("msg8", t0 - 1800000) ].
Proof. reflexivity. Qed.

Lemma seeds_inOrder (t0 : Z) : StronglySorted inOrder (key <$> mockMessages t0).
Proof.
  rewrite keys_mockMessages.
  repeat (apply SSorted_cons || apply SSorted_nil || apply List.Forall_cons
          || apply List.Forall_nil);
    (unfold inOrder; cbn [fst snd]; lia).
Qed.

Lemma seed_before_later (t0 : Z) (a b : string * Z) :
  a ∈ key <$> mockMessages t0 -> t0 <= b.2 -> inOrder a b.
Proof.
  rewrite keys_mockMessages. rewrite !elem_of_cons, elem_of_nil.
  intros Ha Ht. unfold inOrder.
  repeat (destruct Ha as [-> | Ha]; [cbn [fst snd]; lia|]). destruct Ha.
Qed.

Lemma logInv_inOrder (c : Z) (st : State) :
  logInv c st -> StronglySorted inOrder (key <$> messages st).
Proof.
  intros (_ & seeds & gen & -> & Hseeds & Hgen & Hsorted).
  destruct Hseeds as [-> | (t0 & _ & -> & Hafter)]; [done|].
  apply StronglySorted_app. split; [|split; [apply seeds_inOrder|done]].
  intros a b Ha Hb. apply (seed_before_later t0); [done|].
  by apply (proj1 (Forall_forall _ _) Hafter).
Qed.

Lemma twinReplySession_reachable : reachable None twinReplySession.
Proof. exists twinReplyEvents. vm_compute. reflexivity. Qed.

(** C9 (code bug), at the failing input: Dana sends "a" and "b" within the
    second 22:13:24 and the simulator answers both; the two reply callbacks
    run late, one after the other in the millisecond 22:13:28.000.  Each makes
    its id from [Date.now()] alone, so the two replies, entries 10 and 11 of
    the log, carry the same id, and the ids of the log are not unique. *)
Theorem reply_ids_collide :
  reachable closedOverUser twinReplySession
  /\ (Message.id <$> messages twinReplySession) !! 10%nat
     = Some "msg-response-1700000008000"
  /\ (Message.id <$> messages twinReplySession) !! 11%nat
     = Some "msg-response-1700000008000"
  /\ ~ NoDup (Message.id <$> messages twinReplySession).
Proof.
  split; [apply twinReplySession_reachable|].
  assert (H10 : (Message.id <$> messages twinReplySession) !! 10%nat
                = Some "msg-response-1700000008000") by (vm_compute; reflexivity).
  assert (H11 : (Message.id <$> messages twinReplySession) !! 11%nat
                = Some "msg-response-1700000008000") by (vm_compute; reflexivity).
  split; [exact H10|]. split; [exact H11|].
  intros Hnodup.
  assert (Heq : 10%nat = 11%nat); [|discriminate Heq].
  by apply (NoDup_lookup _ 10 11 "msg-response-1700000008000" Hnodup).
Qed.

(** * Further properties *)

(** ** Search navigation *)

Lemma setCurrentSearchIndex_same (st : State) :
  setCurrentSearchIndex (currentSearchIndex st) st = st.
Proof. by destruct st. Qed.

Lemma performSearch_cursorOk (sc : Scope) (query : string) (st : State) :
  cursorOk (performSearch sc query st).
Proof.
  unfold performSearch, cursorOk.
  destruct (negb (Js.truthy (Js.trim query))); simpl; [by left|].
  destruct (List.filter _ _) as [|m l]; simpl; [by left|right; lia].
Qed.

(** Where a navigation step puts the cursor. *)
Lemma navigate_index (d : Direction) (st : State) :
  cursorOk st -> searchResults st <> [] ->
  let n := Z.of_nat (length (searchResults st)) in
  let i := currentSearchIndex st in
  navigate d st =
  setCurrentSearchIndex
    match d with
    | Next => if decide (i + 1 = n) then 0 else i + 1
    | Prev => if decide (i = 0) then n - 1 else i - 1
    end st.
Proof.
  intros [[Hnil _] | Hi] Hne n i; [done|].
  unfold navigate, navigateSearch.
  rewrite decide_False by (by destruct (searchResults st)).
  f_equal. fold n i. destruct d.
  - destruct (decide (i = 0)) as [->|]; [reflexivity|].
    destruct (i - 1 <? 0) eqn:Hlt; [apply Z.ltb_lt in Hlt; lia | reflexivity].
  - destruct (decide (i + 1 = n)) as [->|].
    + apply Z.rem_same. lia.
    + apply Z.rem_small. lia.
Qed.

Lemma navigate_cursorOk (d : Direction) (st : State) :
  cursorOk st -> cursorOk (navigate d st) /\ searchResults (navigate d st) = searchResults st.
Proof.
  intros Hok. destruct (searchResults st) as [|m l] eqn:Hres.
  - unfold navigate, navigateSearch. rewrite Hres. simpl. by rewrite Hres.
  - rewrite navigate_index by (done || by rewrite Hres).
    split; [|by rewrite <- Hres].
    destruct Hok as [[Hnil _] | Hi]; [congruence|].
    right. simpl. destruct d; case_decide; lia.
Qed.

Lemma navigations_cursorOk (ds : list Direction) (st : State) :
  cursorOk st ->
  cursorOk (foldl (fun s d => navigate d s) st ds)
  /\ searchResults (foldl (fun s d => navigate d s) st ds) = searchResults st.
Proof.
  revert st. induction ds as [|d ds IH]; intros st Hok; simpl; [done|].
  destruct (navigate_cursorOk d st Hok) as [Hok1 Hres1].
  destruct (IH (navigate d st) Hok1) as [Hok' Hres']. split; [done|congruence].
Qed.

(** X1: whatever the search state was, after a search and any sequence of
    navigation steps the cursor is -1 over an empty result list and the index
    of a result otherwise, and the steps leave the results of the search as
    they are. *)
Theorem search_then_navigate_cursor (sc : Scope) (query : string) (ds : list Direction)
    (st : State) :
  let found := performSearch sc query st in
  let st' := foldl (fun s d => navigate d s) found ds in
  cursorOk st' /\ searchResults st' = searchResults found.
Proof. intros found st'. apply navigations_cursorOk, performSearch_cursorOk. Qed.

(** X2: over a non-empty result list a step forward from the last result
    goes to the first and a step back from the first goes to the last, every
    other step moves the cursor by one, and a step back undoes a step forward
    and the other way round. *)
Theorem navigate_wraps (st : State) :
  cursorOk st -> searchResults st <> [] ->
  let n := Z.of_nat (length (searchResults st)) in
  let i := currentSearchIndex st in
  currentSearchIndex (navigate Next st) = (if decide (i + 1 = n) then 0 else i + 1)
  /\ currentSearchIndex (navigate Prev st) = (if decide (i = 0) then n - 1 else i - 1)
  /\ navigate Prev (navigate Next st) = st
  /\ navigate Next (navigate Prev st) = st.
Proof.
  intros Hok Hne n i.
  assert (Hi : 0 <= i < n) by (destruct Hok as [[Hnil _]|Hi]; [done|exact Hi]).
  assert (Hback : forall d d' j, 0 <= j < n ->
            match d' with
            | Next => if decide (j + 1 = n) then 0 else j + 1
            | Prev => if decide (j = 0) then n - 1 else j - 1
            end = i ->
            d = Next /\ j = (if decide (i + 1 = n) then 0 else i + 1) /\ d' = Prev
            \/ d = Prev /\ j = (if decide (i = 0) then n - 1 else i - 1) /\ d' = Next ->
            navigate d' (navigate d st) = st).
  { intros d d' j Hj Hji Hd.
    assert (Hnav : navigate d st = setCurrentSearchIndex j st).
    { rewrite navigate_index by done. fold n i.
      by destruct Hd as [(-> & -> & _) | (-> & -> & _)]. }
    rewrite Hnav, navigate_index; [|by right|done]. simpl. fold n.
    assert (Hd' : match d' with
                  | Next => if decide (j + 1 = n) then 0 else j + 1
                  | Prev => if decide (j = 0) then n - 1 else j - 1
                  end = i) by exact Hji.
    replace (match d' with | Prev => _ | Next => _ end) with i
      by (symmetry; destruct d'; exact Hd').
    subst i. by destruct st. }
  split; [|split; [|split]].
  - rewrite navigate_index by done. reflexivity.
  - rewrite navigate_index by done. reflexivity.
  - apply (Hback Next Prev (if decide (i + 1 = n) then 0 else i + 1));
      [repeat case_decide; lia | repeat case_decide; lia | by left].
  - apply (Hback Prev Next (if decide (i = 0) then n - 1 else i - 1));
      [repeat case_decide; lia | repeat case_decide; lia | by right].
Qed.

(** Witness for X2: from the first of the two results for "HELP" a step
    forward reaches the second, a second one wraps to the first. *)
Lemma navigate_wraps_witness :
  currentSearchIndex (navigate Next helpSession) = 1
  /\ navigate Prev (navigate Next helpSession) = helpSession.
Proof.
  destruct (navigate_wraps helpSession) as (Hnext & _ & Hback & _).
  - right. vm_compute. split; [discriminate|reflexivity].
  - vm_compute. discriminate.
  - split; [exact Hnext|exact Hback].
Defined.

Lemma navigate_Next_iter (k : nat) (st : State) :
  cursorOk st -> searchResults st <> [] ->
  Nat.iter k (navigate Next) st =
  setCurrentSearchIndex
    ((currentSearchIndex st + Z.of_nat k) mod Z.of_nat (length (searchResults st))) st.
Proof.
  intros Hok Hne.
  assert (Hi : 0 <= currentSearchIndex st < Z.of_nat (length (searchResults st)))
    by (destruct Hok as [[Hnil _]|Hi]; [done|exact Hi]).
  induction k as [|k IH].
  - simpl. rewrite Z.add_0_r, Z.mod_small by done. by destruct st.
  - rewrite Nat.iter_succ, IH.
    set (n := Z.of_nat (length (searchResults st))) in *.
    set (j := (currentSearchIndex st + Z.of_nat k) mod n).
    assert (Hj : 0 <= j < n) by (apply Z.mod_pos_bound; lia).
    rewrite navigate_index; [|by right|done]. simpl. fold n.
    replace (if decide (j + 1 = n) then 0 else j + 1)
      with ((currentSearchIndex st + Z.of_nat (S k)) mod n); [by destruct st|].
    replace (currentSearchIndex st + Z.of_nat (S k))
      with (currentSearchIndex st + Z.of_nat k + 1) by lia.
    rewrite <- Z.add_mod_idemp_l by lia. fold j.
    case_decide as Hw.
    + rewrite Hw. apply Z.mod_same. lia.
    + apply Z.mod_small. lia.
Qed.

(** X3: stepping forward as many times as there are results visits every
    result once and comes back to the state it started from: [k] steps from
    cursor [i] over [n] results lead to [(i + k) mod n]. *)
Theorem navigate_Next_cycle (k : nat) (st : State) :
  cursorOk st -> searchResults st <> [] ->
  let n := length (searchResults st) in
  currentSearchIndex (Nat.iter k (navigate Next) st)
    = (currentSearchIndex st + Z.of_nat k) mod Z.of_nat n
  /\ Nat.iter n (navigate Next) st = st.
Proof.
  intros Hok Hne n. split.
  - by rewrite navigate_Next_iter.
  - rewrite navigate_Next_iter by done. fold n.
    assert (Hi : 0 <= currentSearchIndex st < Z.of_nat n)
      by (destruct Hok as [[Hnil _]|Hi]; [done|exact Hi]).
    rewrite <- (Z.mul_1_l (Z.of_nat n)) at 1.
    rewrite Z.mod_add, Z.mod_small by lia. by destruct st.
Qed.

(** Witness for X3: two steps forward over the two results for "HELP". *)
Lemma navigate_Next_cycle_witness :
  navigate Next (navigate Next helpSession) = helpSession.
Proof.
  destruct (navigate_Next_cycle 0 helpSession) as [_ Hcycle].
  - right. vm_compute. split; [discriminate|reflexivity].
  - vm_compute. discriminate.
  - exact Hcycle.
Defined.

(** ** Sidebar toggle *)

Lemma toggleSidebar_queued (e : Env) (s : Sidebar.t) :
  now e - Sidebar.lastRenderRef s < 300 ->
  Sidebar.toggleSidebar e s
  = Sidebar.mk (Sidebar.showSidebar s) (Sidebar.lastRenderRef s) (Some (now e + 300)).
Proof. intros Hlt. unfold Sidebar.toggleSidebar. apply Z.ltb_lt in Hlt. by rewrite Hlt. Qed.

(** X4: toggles of the sidebar that all come within 300 ms of the last flip
    do not flip it; they leave one timer, due 300 ms after the last of them,
    and when that timer runs the sidebar flips once, however many toggles
    there were. *)
Theorem toggleSidebar_coalesces (s : Sidebar.t) (es : list Env) (e_last e' : Env) :
  Forall (fun e => now e - Sidebar.lastRenderRef s < 300) (es ++ [e_last]) ->
  now e_last + 300 <= now e' ->
  let s' := foldl (fun s e => Sidebar.toggleSidebar e s) s (es ++ [e_last]) in
  s' = Sidebar.mk (Sidebar.showSidebar s) (Sidebar.lastRenderRef s) (Some (now e_last + 300))
  /\ Sidebar.timeout e' s' = Sidebar.mk (negb (Sidebar.showSidebar s)) (now e') None.
Proof.
  intros Hall Hdue s'.
  assert (Hs' : s' = Sidebar.mk (Sidebar.showSidebar s) (Sidebar.lastRenderRef s)
                       (Some (now e_last + 300))).
  { subst s'. revert s Hall. induction es as [|e es IH]; intros s Hall.
    - simpl in *. apply toggleSidebar_queued. exact (List.Forall_inv Hall).
    - simpl in *. apply Forall_cons in Hall as [He Hall].
      rewrite toggleSidebar_queued by done. by rewrite IH. }
  split; [exact Hs'|]. rewrite Hs'. unfold Sidebar.timeout. simpl.
  apply Z.leb_le in Hdue. by rewrite Hdue.
Qed.

(** Witness for X4: three toggles 50 ms apart, the first 100 ms after the
    sidebar was shown; the timer runs 300 ms after the third. *)
Lemma toggleSidebar_coalesces_witness :
  Sidebar.timeout (at_ 500)
    (Sidebar.toggleSidebar (at_ 200)
      (Sidebar.toggleSidebar (at_ 150)
        (Sidebar.toggleSidebar (at_ 100) (Sidebar.mk true (now (at_ 0)) None))))
  = Sidebar.mk false (now (at_ 500)) None.
Proof.
  apply (toggleSidebar_coalesces (Sidebar.mk true (now (at_ 0)) None)
           [at_ 100; at_ 150] (at_ 200) (at_ 500)).
  - repeat constructor; simpl; lia.
  - simpl. lia.
Defined.

(** X5: a toggle that comes 300 ms or more after the last flip flips the
    sidebar at once and does not clear a timer that is still pending; when
    that timer runs the sidebar flips back. *)
Theorem toggleSidebar_keeps_pending (s : Sidebar.t) (e e' : Env) (due : Z) :
  Sidebar.pending s = Some due -> 300 <= now e - Sidebar.lastRenderRef s ->
  due <= now e' ->
  Sidebar.toggleSidebar e s = Sidebar.mk (negb (Sidebar.showSidebar s)) (now e) (Some due)
  /\ Sidebar.showSidebar (Sidebar.timeout e' (Sidebar.toggleSidebar e s))
     = Sidebar.showSidebar s.
Proof.
  intros Hp Hge Hdue. unfold Sidebar.toggleSidebar.
  apply Z.ltb_ge in Hge. rewrite Hge, Hp. split; [reflexivity|].
  unfold Sidebar.timeout. simpl. apply Z.leb_le in Hdue. rewrite Hdue. simpl.
  apply negb_involutive.
Qed.

(** Witness for X5: a toggle queued 250 ms after the last flip, another one
    60 ms later. *)
Lemma toggleSidebar_keeps_pending_witness :
  Sidebar.showSidebar
    (Sidebar.timeout (at_ 550)
      (Sidebar.toggleSidebar (at_ 310)
        (Sidebar.mk true (now (at_ 0)) (Some (now (at_ 550))))))
  = true.
Proof.
  apply (toggleSidebar_keeps_pending (Sidebar.mk true (now (at_ 0)) (Some (now (at_ 550))))
           (at_ 310) (at_ 550) (now (at_ 550))).
  - reflexivity.
  - simpl. lia.
  - lia.
Defined.

(** ** The log and the roster over a run *)

(** Running events from any state: a property every event keeps, and a
    preorder every event respects, hold of the whole run. *)
Lemma run_preserves (ru : option User.t) (Q : State -> Prop) (R : State -> State -> Prop) :
  (forall st, R st st) ->
  (forall a b c, R a b -> R b c -> R a c) ->
  (forall e ev st st', Q st -> apply ru e ev st = Some st' -> Q st' /\ R st st') ->
  forall evs c st st', Q st -> run ru evs c st = Some st' -> Q st' /\ R st st'.
Proof.
  intros Hrefl Htrans Hstep evs.
  induction evs as [|[e ev] evs IH]; intros c st st' HQ Hrun; simpl in Hrun.
  - injection Hrun as <-. auto.
  - destruct ((c <=? now e) && (0 <=? random e) && (random e <? 1000)); [|discriminate].
    destruct (apply ru e ev st) as [st1|] eqn:Happ; [|discriminate].
    destruct (Hstep e ev st st1 HQ Happ) as [HQ1 HR1].
    destruct (IH (now e) st1 st' HQ1 Hrun) as [HQ' HR']. eauto.
Qed.

(** What one event does to the log: nothing, the seeding, a reaction toggle,
    or one message appended, with no reactions and status [sent], from the
    local participant or from the responder of the callback that ran. *)
Lemma apply_log (ru : option User.t) (e : Env) (ev : Event) (st st' : State) :
  apply ru e ev st = Some st' ->
  messages st' = messages st
  \/ (isMounted st = false /\ st' = mount e st)
  \/ (exists uid mid emoji, messages st' = reactTo uid mid emoji <$> messages st)
  \/ (exists m, messages st' = messages st ++ [m]
        /\ Message.reactions m = ∅ /\ Message.status m = Message.sent
        /\ Message.timestamp m = now e
        /\ ((exists cu, currentUser st = Some cu /\ Message.senderId m = User.id cu)
            \/ (exists t r, t ∈ timers st /\ mountedFlag t.2 = true
                  /\ responder t.2 = Some r /\ Message.senderId m = User.id r))).
Proof.
  destruct ev; simpl; intros Happ.
  - destruct (isMounted st) eqn:Hm; [discriminate|]. injection Happ as <-. right. by left.
  - injection Happ as <-. left. unfold handleLogin, handleLoginSubmit.
    repeat case_match; reflexivity.
  - injection Happ as <-. by left.
  - injection Happ as <-.
    destruct (send_cases (scopeOf ru st) e text st) as [-> | (cu & Hcu & Hm & Ht)];
      [by left|].
    destruct (send_accepted (scopeOf ru st) e text st cu Hcu Hm Ht) as (_ & Hlog & _).
    right. right. right. eexists. split; [exact Hlog|]. simpl.
    repeat split. left. by exists cu.
  - destruct (currentUser st); injection Happ as <-; [|by left].
    destruct ru as [u|]; [|by left].
    right. right. left. by exists (User.id u), messageId, emoji.
  - injection Happ as <-. left. unfold changeUserStatus. repeat case_match; reflexivity.
  - injection Happ as <-. left. unfold statusFrame. repeat case_match; reflexivity.
  - destruct (timers st !! i) as [[due cb]|] eqn:Hi; [|discriminate].
    destruct (due <=? now e); [|discriminate]. injection Happ as <-.
    apply list_elem_of_lookup_2 in Hi.
    destruct cb as [m r | m cu msgs r reactor | m cu msgs reactor | has top height | | ];
      simpl.
    + left. by destruct m.
    + destruct m; simpl; [|by left].
      right. right. right. eexists. split; [by case_decide|]. simpl.
      repeat split. right. by exists (due, Respond true cu msgs r reactor), r.
    + destruct m; simpl; [|by left].
      destruct (List.find _ _) as [userMessage|]; [|by left].
      destruct reactor as [u|]; [|by left].
      right. right. left. by eexists (User.id u), _, _.
    + left. unfold restoreScroll. repeat case_match; reflexivity.
    + left. repeat case_match; reflexivity.
    + by left.
  - injection Happ as <-. left. unfold performSearch. repeat case_match; reflexivity.
  - injection Happ as <-. by left.
Qed.

Lemma core_reactTo (userId messageId emoji : string) (m : Message.t) :
  core (reactTo userId messageId emoji m) = core m.
Proof. unfold reactTo. by case_decide. Qed.

Lemma cores_reactTo (userId messageId emoji : string) (l : list Message.t) :
  core <$> (reactTo userId messageId emoji <$> l) = core <$> l.
Proof.
  rewrite <- list_fmap_compose. apply list_fmap_ext. intros i m _. apply core_reactTo.
Qed.

Lemma mount_isMounted (e : Env) (st : State) : isMounted (mount e st) = true.
Proof. reflexivity. Qed.

Lemma apply_isMounted (ru : option User.t) (e : Env) (ev : Event) (st st' : State) :
  isMounted st = true -> apply ru e ev st = Some st' -> isMounted st' = true.
Proof.
  intros Hm Happ. destruct ev; simpl in Happ.
  - rewrite Hm in Happ. discriminate.
  - injection Happ as <-. unfold handleLogin, handleLoginSubmit.
    repeat case_match; simpl; done.
  - by injection Happ as <-.
  - injection Happ as <-. by destruct (send_frame (scopeOf ru st) e text st) as (-> & _).
  - destruct (currentUser st); injection Happ as <-; [|done]. by destruct ru.
  - injection Happ as <-. unfold changeUserStatus. repeat case_match; simpl; done.
  - injection Happ as <-. unfold statusFrame. repeat case_match; simpl; done.
  - destruct (timers st !! i) as [[due cb]|]; [|discriminate].
    destruct (due <=? now e); [|discriminate]. injection Happ as <-.
    by rewrite fire_isMounted.
  - injection Happ as <-. unfold performSearch. repeat case_match; simpl; done.
  - by injection Happ as <-.
Qed.

(** X7: once the component is mounted the log is append-only and a message
    is immutable but for its reactions: in a run of events from a mounted
    state, the old log, stripped of the reactions, is a prefix of the new one
    stripped likewise: nothing is deleted, reordered or edited, and ids,
    senders, texts, timestamps and delivery states stay as they are. *)
Theorem log_append_only (ru : option User.t) (evs : list (Env * Event)) (c : Z)
    (st st' : State) :
  isMounted st = true -> run ru evs c st = Some st' ->
  (core <$> messages st) `prefix_of` (core <$> messages st').
Proof.
  intros Hm Hrun.
  apply (run_preserves ru (fun s => isMounted s = true)
           (fun a b => (core <$> messages a) `prefix_of` (core <$> messages b)))
    with (evs := evs) (c := c) (st := st) (st' := st'); [done| |  |done|done].
  - intros a b d Hab Hbd. by etrans.
  - intros e ev s s' Hs Happ. split; [by eapply apply_isMounted|].
    apply apply_log in Happ
      as [-> | [[Hf _] | [(uid & mid & emoji & ->) | (m & -> & _)]]].
    + done.
    + congruence.
    + by rewrite cores_reactTo.
    + rewrite fmap_app. by apply prefix_app_r.
Qed.

(** Witness for X7: the run in which Dana sends two messages and gets two
    replies, seen from the state after her login. *)
Lemma log_append_only_witness :
  (core <$> messages danaSession) `prefix_of` (core <$> messages twinReplySession).
Proof.
  apply (log_append_only None (drop 2 twinReplyEvents) (now (at_ 1000))).
  - reflexivity.
  - vm_compute. reflexivity.
Defined.

(** X8: no operation advances a delivery state: in every reachable state
    every message of the log has status [sent]. *)
Theorem delivery_state_stays_sent (ru : option User.t) (st : State) (m : Message.t) :
  reachable ru st -> m ∈ messages st -> Message.status m = Message.sent.
Proof.
  intros [evs Hrun] Hin.
  destruct (run_invariant ru
              (fun _ s => Forall (fun m => Message.status m = Message.sent) (messages s)))
    with (evs := evs) (c := 0) (st := initialState) (st' := st) as [_ Hall];
    [|constructor|done|by apply (proj1 (Forall_forall _ _) Hall)].
  intros e ev c s s' _ _ Hs Happ.
  apply apply_log in Happ
    as [-> | [[_ ->] | [(uid & mid & emoji & ->) | (m' & -> & _ & Hsent & _)]]].
  - done.
  - apply Forall_fmap with (f := Message.status) (P := fun x => x = Message.sent).
    change (Message.status <$> messages (mount e s)) with (replicate 8 Message.sent).
    by apply Forall_replicate.
  - apply Forall_fmap. eapply Forall_impl; [exact Hs|].
    intros x Hx. unfold reactTo. simpl. by case_decide.
  - apply Forall_app. split; [done|]. by apply Forall_singleton.
Qed.

(** Witness for X8: the second reply of the simulator in the run with two
    replies. *)
Lemma delivery_state_stays_sent_witness :
  (Message.status <$> messages twinReplySession !! 11%nat) = Some Message.sent.
Proof.
  destruct (messages twinReplySession !! 11%nat) as [m|] eqn:Hm.
  - simpl. f_equal.
    apply (delivery_state_stays_sent None twinReplySession m).
    + exists twinReplyEvents. vm_compute. reflexivity.
    + by eapply list_elem_of_lookup_2.
  - exfalso. apply lookup_ge_None in Hm. vm_compute in Hm. lia.
Defined.

(** What one event does to the roster: nothing, the seeding, a change of
    status or typing flag that keeps every identity, or one participant
    appended by a login. *)
Lemma apply_roster (ru : option User.t) (e : Env) (ev : Event) (st st' : State) :
  apply ru e ev st = Some st' ->
  (isMounted st = false /\ st' = mount e st)
  \/ (exists f, users st' = f <$> users st /\ forall u, identity (f u) = identity u)
  \/ (exists u, users st' = users st ++ [u] /\ currentUser st' = Some u
        /\ isMounted st = true /\ User.status u = User.online /\ User.isTyping u = false).
Proof.
  assert (Hsame : forall l, l = users st ->
            exists f, l = f <$> users st /\ forall u, identity (f u) = identity u).
  { intros l ->. exists (fun u => u). by rewrite list_fmap_id. }
  assert (Htyping : forall l uid b,
            l = users (updateUserTypingStatus uid b st) ->
            exists f, l = f <$> users st /\ forall u, identity (f u) = identity u).
  { intros l uid b ->. eexists. split; [reflexivity|]. intros u. simpl. by case_decide. }
  destruct ev; simpl; intros Happ.
  - destruct (isMounted st) eqn:Hm; [discriminate|]. injection Happ as <-. by left.
  - injection Happ as <-. unfold handleLogin, handleLoginSubmit. simpl.
    destruct (Js.truthy _); [|right; left; by apply Hsame].
    destruct (isMounted st) eqn:Hm; simpl; [|right; left; by apply Hsame].
    right. right. eexists. repeat split.
  - injection Happ as <-. right. left. by apply Hsame.
  - injection Happ as <-. right. left.
    destruct (send_cases (scopeOf ru st) e text st) as [-> | (cu & Hcu & Hm & Ht)];
      [by apply Hsame|].
    destruct (send_accepted (scopeOf ru st) e text st cu Hcu Hm Ht) as (_ & _ & Hu & _).
    by apply (Htyping _ (User.id cu) false).
  - right. left. destruct (currentUser st); injection Happ as <-; [|by apply Hsame].
    destruct ru; by apply Hsame.
  - injection Happ as <-. right. left. apply Hsame.
    unfold changeUserStatus. repeat case_match; reflexivity.
  - injection Happ as <-. right. left. unfold statusFrame.
    destruct (statusAnimationRef st) as [[cu status]|]; [|by apply Hsame].
    eexists. split; [reflexivity|]. intros u. simpl. by case_decide.
  - destruct (timers st !! i) as [[due cb]|] eqn:Hi; [|discriminate].
    destruct (due <=? now e); [|discriminate]. injection Happ as <-. right. left.
    destruct cb as [m r | m cu msgs r reactor | m cu msgs reactor | has top height | | ].
    + destruct m; [|by apply Hsame]. by apply (Htyping _ (User.id r) true).
    + destruct m; [|by apply Hsame].
      apply (Htyping _ (User.id r) false). simpl. by case_decide.
    + destruct m; [|by apply Hsame]. simpl.
      destruct (List.find _ _); [|by apply Hsame]. apply Hsame. by destruct reactor.
    + apply Hsame. simpl. unfold restoreScroll. repeat case_match; reflexivity.
    + apply Hsame. simpl. repeat case_match; reflexivity.
    + by apply Hsame.
  - injection Happ as <-. right. left. apply Hsame.
    unfold performSearch. repeat case_match; reflexivity.
  - injection Happ as <-. right. left. by apply Hsame.
Qed.

(** X9: once the component is mounted no participant leaves the roster and
    none changes identity: in a run of events from a mounted state, the ids,
    names, avatars and last-seen times of the old roster are a prefix of those
    of the new one; only statuses and typing flags change, and logins
    append. *)
Theorem roster_append_only (ru : option User.t) (evs : list (Env * Event)) (c : Z)
    (st st' : State) :
  isMounted st = true -> run ru evs c st = Some st' ->
  (identity <$> users st) `prefix_of` (identity <$> users st').
Proof.
  intros Hm Hrun.
  apply (run_preserves ru (fun s => isMounted s = true)
           (fun a b => (identity <$> users a) `prefix_of` (identity <$> users b)))
    with (evs := evs) (c := c) (st := st) (st' := st'); [done| |  |done|done].
  - intros a b d Hab Hbd. by etrans.
  - intros e ev s s' Hs Happ. split; [by eapply apply_isMounted|].
    apply apply_roster in Happ as [[Hf _] | [(f & -> & Hid) | (u & -> & _)]].
    + congruence.
    + rewrite <- list_fmap_compose.
      erewrite (list_fmap_ext (identity ∘ f)); [done|]. intros i u _. apply Hid.
    + rewrite fmap_app. by apply prefix_app_r.
Qed.

(** Witness for X9: five more logins after Ann's. *)
Lemma roster_append_only_witness :
  (identity <$> users (default initialState
                         (run None (take 2 crowdedEvents) 0 initialState)))
    `prefix_of` (identity <$> users crowdedSession).
Proof.
  apply (roster_append_only None (drop 2 crowdedEvents) (now (at_ 1000))).
  - reflexivity.
  - vm_compute. reflexivity.
Defined.

Lemma simulateResponse_timers (sc : Scope) (e : Env) (st : State) (t : Z * Callback) :
  t ∈ timers (simulateResponse sc e st) ->
  t ∈ timers st
  \/ (sc_isMounted sc = true /\
      exists cu r, sc_currentUser sc = Some cu /\ r ∈ respondingUsers cu (sc_users sc)
        /\ responder t.2 = Some r).
Proof.
  unfold simulateResponse.
  destruct (sc_currentUser sc) as [cu|]; [|by left].
  destruct (sc_isMounted sc); simpl; [|by left].
  destruct (bool_decide _); simpl; [|by left].
  case_decide; [by left|].
  destruct (respondingUsers cu (sc_users sc) !! _) as [r|] eqn:Hr; [|by left].
  apply list_elem_of_lookup_2 in Hr.
  unfold setTimeout. simpl. rewrite <- app_assoc. simpl.
  rewrite elem_of_app, !elem_of_cons, elem_of_nil.
  intros [Hold | [-> | [-> | []]]]; [by left | right; split; [done|]; by exists cu, r ..].
Qed.

Lemma handleEmojiReaction_timers (cu : option User.t) (e : Env) (messageId emoji : string)
    (st : State) (t : Z * Callback) :
  t ∈ timers (handleEmojiReaction cu e messageId emoji st) ->
  t ∈ timers st \/ mountedFlag t.2 = false.
Proof.
  destruct cu as [cu|]; [|by left]. unfold handleEmojiReaction, setTimeout. simpl.
  rewrite <- !app_assoc. simpl. rewrite elem_of_app, !elem_of_cons, elem_of_nil.
  intros [Hold | [-> | [-> | [-> | [-> | []]]]]]; auto.
Qed.

(** Where the timers after an event come from: they were pending already,
    or they are no simulator callbacks of a mounted component, or they are
    such callbacks, newly set for a participant of the roster. *)
Lemma apply_timers (ru : option User.t) (e : Env) (ev : Event) (st st' : State)
    (t : Z * Callback) :
  apply ru e ev st = Some st' -> t ∈ timers st' ->
  t ∈ timers st
  \/ mountedFlag t.2 = false
  \/ ((isMounted st = true \/ exists t0, t0 ∈ timers st /\ mountedFlag t0.2 = true)
      /\ forall r, responder t.2 = Some r -> r ∈ users st).
Proof.
  destruct ev; simpl; intros Happ.
  - destruct (isMounted st); [discriminate|]. injection Happ as <-. by left.
  - injection Happ as <-. unfold handleLogin, handleLoginSubmit.
    repeat case_match; simpl; by left.
  - injection Happ as <-. unfold handleLogout, setTimeout. simpl.
    rewrite elem_of_app, elem_of_cons, elem_of_nil. intros [?|[->|[]]]; auto.
  - injection Happ as <-.
    unfold send, ChatInput.handleSendMessage, handleSendMessage. simpl.
    destruct (Js.truthy _); simpl; [|by left].
    destruct (currentUser st) as [cu|] eqn:Hcu; simpl; [|by left].
    destruct (isMounted st) eqn:Hm; simpl; [|by left].
    intros Ht. apply simulateResponse_timers in Ht as [Ht | (_ & cu' & r & Hcu' & Hr & Hresp)].
    + revert Ht. destruct (typingTimeout st); unfold scrollToBottom, setTimeout; simpl;
        rewrite elem_of_app, elem_of_cons, elem_of_nil; intros [?|[->|[]]]; auto.
    + right. right. split; [by left|]. intros r' Hr'. simpl in *.
      rewrite Hresp in Hr'. injection Hr' as <-.
      by apply respondingUsers_spec in Hr as (Hr & _).
  - destruct (currentUser st); injection Happ as <-; [|by left].
    intros Ht. apply handleEmojiReaction_timers in Ht. tauto.
  - injection Happ as <-. unfold changeUserStatus. repeat case_match; simpl; by left.
  - injection Happ as <-. unfold statusFrame. repeat case_match; simpl; by left.
  - destruct (timers st !! i) as [[due cb]|] eqn:Hi; [|discriminate].
    destruct (due <=? now e); [|discriminate]. injection Happ as <-.
    apply list_elem_of_lookup_2 in Hi.
    assert (Hdel : forall t, t ∈ delete i (timers st) -> t ∈ timers st).
    { intros t0. apply list_elem_of_delete_inv. }
    destruct cb as [m r | m cu msgs r reactor | m cu msgs reactor | has top height | | ];
      simpl.
    + destruct m; simpl; auto.
    + destruct m; simpl; [|auto]. case_decide; simpl; [|auto].
      unfold setTimeout. simpl. rewrite elem_of_app, elem_of_cons, elem_of_nil.
      intros [?|[->|[]]]; [auto|]. right. right. split; [|done].
      right. by exists (due, Respond true cu msgs r reactor).
    + destruct m; simpl; [|auto]. destruct (List.find _ _); [|auto].
      intros Ht. apply handleEmojiReaction_timers in Ht as [Ht|Ht]; auto.
    + unfold restoreScroll. repeat case_match; simpl; auto.
    + repeat case_match; simpl; auto.
    + simpl. auto.
  - injection Happ as <-. unfold performSearch. repeat case_match; simpl; by left.
  - injection Happ as <-. by left.
Qed.

(** The local participant after an event: none, the old one (perhaps with a
    new status), or the participant a login has just appended. *)
Lemma apply_currentUser (ru : option User.t) (e : Env) (ev : Event) (st st' : State)
    (cu' : User.t) :
  apply ru e ev st = Some st' -> currentUser st' = Some cu' ->
  (exists p, currentUser st = Some p /\ User.id cu' = User.id p)
  \/ (isMounted st = true /\ users st' = users st ++ [cu']).
Proof.
  assert (Hsame : forall s, currentUser s = currentUser st -> currentUser s = Some cu' ->
            (exists p, currentUser st = Some p /\ User.id cu' = User.id p)
            \/ (isMounted st = true /\ users s = users st ++ [cu'])).
  { intros s -> Hcu. left. by exists cu'. }
  destruct ev; simpl; intros Happ.
  - destruct (isMounted st); [discriminate|]. injection Happ as <-. by apply Hsame.
  - injection Happ as <-. unfold handleLogin, handleLoginSubmit. simpl.
    destruct (Js.truthy _); [|by apply Hsame].
    destruct (isMounted st); simpl; [|by apply Hsame].
    intros [= <-]. by right.
  - injection Happ as <-. by apply Hsame.
  - injection Happ as <-. apply Hsame.
    by destruct (send_frame (scopeOf ru st) e text st) as (_ & -> & _).
  - destruct (currentUser st) eqn:Hcu; injection Happ as <-; [|by apply Hsame].
    apply Hsame. by destruct ru.
  - injection Happ as <-. apply Hsame. unfold changeUserStatus.
    repeat case_match; reflexivity.
  - injection Happ as <-. unfold statusFrame.
    destruct (statusAnimationRef st) as [[cu status]|]; [|by apply Hsame]. simpl.
    destruct (currentUser st) as [p|]; [|discriminate].
    intros [= <-]. left. by exists p.
  - destruct (timers st !! i) as [[due cb]|]; [|discriminate].
    destruct (due <=? now e); [|discriminate]. injection Happ as <-.
    destruct (fire_currentUser e cb (setTimers (delete i) st)) as [-> | ->];
      [|discriminate].
    simpl. intros Hcu. left. by exists cu'.
  - injection Happ as <-. apply Hsame. unfold performSearch.
    repeat case_match; reflexivity.
  - injection Happ as <-. by apply Hsame.
Qed.

Lemma apply_isMounted_eq (ru : option User.t) (e : Env) (ev : Event) (st st' : State) :
  apply ru e ev st = Some st' ->
  isMounted st' = isMounted st \/ (isMounted st = false /\ st' = mount e st).
Proof.
  intros Happ. destruct ev; simpl in Happ.
  - destruct (isMounted st) eqn:Hm; [discriminate|]. injection Happ as <-. by right.
  - injection Happ as <-. left. unfold handleLogin, handleLoginSubmit.
    repeat case_match; simpl; done.
  - injection Happ as <-. by left.
  - injection Happ as <-. left.
    by destruct (send_frame (scopeOf ru st) e text st) as (-> & _).
  - left. destruct (currentUser st); injection Happ as <-; [|done]. by destruct ru.
  - injection Happ as <-. left. unfold changeUserStatus. repeat case_match; simpl; done.
  - injection Happ as <-. left. unfold statusFrame. repeat case_match; simpl; done.
  - destruct (timers st !! i) as [[due cb]|]; [|discriminate].
    destruct (due <=? now e); [|discriminate]. injection Happ as <-.
    left. by rewrite fire_isMounted.
  - injection Happ as <-. left. unfold performSearch. repeat case_match; simpl; done.
  - injection Happ as <-. by left.
Qed.

Lemma mock_attributed (t0 : Z) (m : Message.t) :
  m ∈ mockMessages t0 -> Message.senderId m ∈ User.id <$> mockUsers t0.
Proof.
  intros Hin. apply (list_elem_of_fmap_2 Message.senderId) in Hin.
  change (Message.senderId <$> mockMessages t0)
    with ["user1"; "user2"; "user3"; "user1"; "user4"; "user2"; "user1"; "user4"] in Hin.
  change (User.id <$> mockUsers t0) with ["user1"; "user2"; "user3"; "user4"; "user5"].
  revert Hin. generalize (Message.senderId m). intros s.
  rewrite !elem_of_cons, !elem_of_nil. tauto.
Qed.

Lemma attributed_step (ru : option User.t) (e : Env) (ev : Event) (st st' : State) :
  attributed st -> apply ru e ev st = Some st' -> attributed st'.
Proof.
  intros (Hlog & Hcu & Htimers) Happ.
  destruct (apply_roster ru e ev st st' Happ) as [[Hm ->] | Hroster].
  { (* the seeding *)
    split; [|split].
    - intros m. apply mock_attributed.
    - intros cu Hcu'. destruct (Hcu cu Hcu') as [Hm' _]. congruence.
    - intros t Ht Hflag. destruct (Htimers t Ht Hflag) as [Hm' _]. congruence. }
  assert (Hmono : forall x, x ∈ User.id <$> users st -> x ∈ User.id <$> users st').
  { intros x. destruct Hroster as [(f & -> & Hid) | (u & -> & _)].
    - rewrite <- list_fmap_compose.
      replace ((User.id ∘ f) <$> users st) with (User.id <$> users st); [done|].
      apply list_fmap_ext. intros i u _. simpl.
      specialize (Hid u). unfold identity in Hid. congruence.
    - rewrite fmap_app, elem_of_app. by left. }
  assert (Hmounted : isMounted st = true -> isMounted st' = true).
  { intros Hm. destruct (apply_isMounted_eq ru e ev st st' Happ) as [-> | [Hf _]];
      congruence. }
  split; [|split].
  - intros m Hm.
    destruct (apply_log ru e ev st st' Happ)
      as [Heq | [[_ Heq] | [(uid & mid & emoji & Heq) | (m' & Heq & _ & _ & _ & Hsender)]]].
    + apply Hmono, Hlog. by rewrite <- Heq.
    + rewrite Heq in Hm |- *. by apply mock_attributed.
    + rewrite Heq in Hm. apply list_elem_of_fmap in Hm as (m0 & -> & Hm0).
      apply Hmono. replace (Message.senderId (reactTo uid mid emoji m0))
        with (Message.senderId m0) by (unfold reactTo; by case_decide).
      by apply Hlog.
    + rewrite Heq, elem_of_app, list_elem_of_singleton in Hm.
      destruct Hm as [Hm | ->]; [by apply Hmono, Hlog|]. apply Hmono.
      destruct Hsender as [(cu & Hcu' & ->) | (t & r & Ht & Hflag & Hr & ->)].
      * by apply Hcu.
      * by apply (Htimers t Ht Hflag).
  - intros cu' Hcu'.
    destruct (apply_currentUser ru e ev st st' cu' Happ Hcu')
      as [(p & Hp & Hid) | [Hm Hu]].
    + destruct (Hcu p Hp) as [Hm Hin]. split; [by apply Hmounted|].
      rewrite Hid. by apply Hmono.
    + split; [by apply Hmounted|]. rewrite Hu, fmap_app, elem_of_app. right.
      by apply list_elem_of_singleton.
  - intros t Ht Hflag.
    destruct (apply_timers ru e ev st st' t Happ Ht) as [Hold | [Hf | [Hm Hr]]].
    + destruct (Htimers t Hold Hflag) as [Hm Hr]. split; [by apply Hmounted|].
      intros r Hresp. by apply Hmono, Hr.
    + congruence.
    + split.
      * apply Hmounted. destruct Hm as [Hm | (t0 & Ht0 & Hflag0)]; [done|].
        by apply (Htimers t0 Ht0 Hflag0).
      * intros r Hresp. apply Hmono, list_elem_of_fmap_2. by apply Hr.
Qed.

Lemma reachable_attributed (ru : option User.t) (st : State) :
  reachable ru st -> attributed st.
Proof.
  intros [evs Hrun].
  destruct (run_invariant ru (fun _ s => attributed s))
    with (evs := evs) (c := 0) (st := initialState) (st' := st) as [_ H]; [| |done|done].
  - intros e ev c s s' _ _ Hs Happ. by eapply attributed_step.
  - split; [|split].
    + intros m Hm. by apply elem_of_nil in Hm.
    + intros cu Hcu. discriminate Hcu.
    + intros t Ht. by apply elem_of_nil in Ht.
Qed.

Lemma getUserById_found (roster : list User.t) (id : string) :
  id ∈ User.id <$> roster ->
  exists u, getUserById roster id = Some u /\ User.id u = id /\ u ∈ roster.
Proof.
  intros Hin. apply list_elem_of_fmap in Hin as (u0 & -> & Hu0).
  unfold getUserById.
  destruct (List.find _ roster) as [u|] eqn:Hfind.
  - apply find_some in Hfind as [Hu Hid]. apply bool_decide_eq_true in Hid.
    exists u. by rewrite <- list_elem_of_In in Hu.
  - apply list_elem_of_In in Hu0.
    apply (find_none _ _ Hfind) in Hu0. by apply bool_decide_eq_false in Hu0.
Qed.

(** X10: in every reachable state every message of the log has its sender in
    the roster: [getUserById] finds a participant with the sender's id, so no
    message is left without a sender to show it under. *)
Theorem message_senders_in_roster (ru : option User.t) (st : State) (m : Message.t) :
  reachable ru st -> m ∈ messages st ->
  exists u, getUserById (users st) (Message.senderId m) = Some u
    /\ User.id u = Message.senderId m /\ u ∈ users st.
Proof.
  intros Hreach Hm. apply getUserById_found.
  by apply (reachable_attributed ru st Hreach).
Qed.

(** Witness for X10: the first reply of the simulator is from Samantha Lee,
    who is in the roster. *)
Lemma message_senders_in_roster_witness :
  exists u, getUserById (users twinReplySession) "user2" = Some u
    /\ User.id u = "user2" /\ u ∈ users twinReplySession.
Proof.
  destruct (messages twinReplySession !! 10%nat) as [m|] eqn:Hm.
  - assert (Hs : Message.senderId m = "user2").
    { apply (f_equal (fmap Message.senderId)) in Hm. vm_compute in Hm. by injection Hm. }
    rewrite <- Hs.
    apply (message_senders_in_roster None).
    + exists twinReplyEvents. vm_compute. reflexivity.
    + by eapply list_elem_of_lookup_2.
  - exfalso. apply lookup_ge_None in Hm. vm_compute in Hm. lia.
Defined.

(** X11: in every reachable state with a local participant the component is
    mounted and the roster holds a participant with the local participant's
    id: a login adds the participant to the roster and nothing removes it. *)
Theorem local_participant_in_roster (ru : option User.t) (st : State) (cu : User.t) :
  reachable ru st -> currentUser st = Some cu ->
  isMounted st = true
  /\ exists u, getUserById (users st) (User.id cu) = Some u
       /\ User.id u = User.id cu /\ u ∈ users st.
Proof.
  intros Hreach Hcu.
  destruct (reachable_attributed ru st Hreach) as (_ & Hlocal & _).
  destruct (Hlocal cu Hcu) as [Hm Hin]. split; [done|]. by apply getUserById_found.
Qed.

(** Witness for X11: Dana, the sixth to log in on the page. *)
Lemma local_participant_in_roster_witness :
  exists u, getUserById (users crowdedSession) "user-dana-1700000012000" = Some u
       /\ User.id u = "user-dana-1700000012000" /\ u ∈ users crowdedSession.
Proof.
  destruct (currentUser crowdedSession) as [cu|] eqn:Hcu.
  - assert (Hid : User.id cu = "user-dana-1700000012000").
    { apply (f_equal (fmap User.id)) in Hcu. vm_compute in Hcu. by injection Hcu. }
    rewrite <- Hid.
    apply (local_participant_in_roster None crowdedSession cu); [|done].
    exists crowdedEvents. vm_compute. reflexivity.
  - vm_compute in Hcu. discriminate Hcu.
Defined.

(** ** A reply cycle of the simulator from end to end *)

Lemma simulateResponse_scheduled (sc : Scope) (e : Env) (st : State) (cu : User.t) :
  sc_currentUser sc = Some cu -> sc_isMounted sc = true ->
  getSeconds e mod 3 = 0 -> respondingUsers cu (sc_users sc) <> [] ->
  exists r,
    r ∈ respondingUsers cu (sc_users sc)
    /\ simulateResponse sc e st =
         setTimeout e 3000 (Respond true cu (sc_messages sc) r (sc_reactionUser sc))
           (setTimeout e 1000 (TypingOn true r) st).
Proof.
  intros Hcu Hm Hsec Hsome. unfold simulateResponse. rewrite Hcu, Hm.
  rewrite bool_decide_eq_true_2 by done. simpl.
  set (candidates := respondingUsers cu (sc_users sc)) in *.
  assert (Hlen : length candidates <> 0%nat) by (by destruct candidates).
  rewrite decide_False by done.
  assert (Hlt : (Z.to_nat (getMinutes e mod Z.of_nat (length candidates))
                 < length candidates)%nat).
  { pose proof (Z.mod_pos_bound (getMinutes e) (Z.of_nat (length candidates))). lia. }
  apply lookup_lt_is_Some_2 in Hlt as [r Hr].
  exists r. rewrite Hr. split; [by eapply list_elem_of_lookup_2|done].
Qed.

Lemma responses_in_range (n : nat) :
  exists t, responses !! (n mod length responses)%nat = Some t /\ t ∈ responses.
Proof.
  assert (Hlt : (n mod length responses < length responses)%nat)
    by (apply Nat.mod_upper_bound; discriminate).
  apply lookup_lt_is_Some_2 in Hlt as [t Ht].
  exists t. split; [done|]. by eapply list_elem_of_lookup_2.
Qed.

(** The state after a send that the simulator answers. *)
Lemma send_answered (sc : Scope) (e : Env) (text : string) (st : State) (cu : User.t) :
  sc_currentUser sc = Some cu -> sc_isMounted sc = true -> Js.trim text <> "" ->
  getSeconds e mod 3 = 0 -> respondingUsers cu (sc_users sc) <> [] ->
  exists r st0,
    r ∈ respondingUsers cu (sc_users sc)
    /\ messages st0 = messages st ++
         [Message.mk ("msg-" +:+ Js.ofNumber (now e) +:+ "-" +:+ Js.ofNumber (random e))
            (User.id cu) text (now e) ∅ Message.sent]
    /\ users st0 = users (updateUserTypingStatus (User.id cu) false st)
    /\ timers st0 = timers st ++ [(now e + 0, ScrollToEnd)]
    /\ snd (send sc e text st) =
         setTimeout e 3000 (Respond true cu (sc_messages sc) r (sc_reactionUser sc))
           (setTimeout e 1000 (TypingOn true r) st0).
Proof.
  intros Hcu Hm Htrim Hsec Hcand. apply truthy_nonempty in Htrim.
  unfold send, ChatInput.handleSendMessage, handleSendMessage. simpl.
  rewrite Htrim, Hcu, Hm. simpl.
  match goal with
  | |- context [simulateResponse sc e ?s] =>
      destruct (simulateResponse_scheduled sc e s cu Hcu Hm Hsec Hcand) as (r & Hr & ->)
  end.
  exists r. eexists. split; [done|]. split; [|split; [|split; [|reflexivity]]].
  - by destruct (sc_typingTimeout sc).
  - by destruct (sc_typingTimeout sc).
  - by destruct (sc_typingTimeout sc).
Qed.

(** X12: a send that the simulator answers, followed by its typing callback
    and its reply callback: the responder is an online participant of the
    roster other than the sender; it is shown typing after the first callback
    and not typing after the second; the log has grown by the message sent and
    then the reply; and the text of the reply is the canned phrase at index
    (length of the log before the send) mod 8. *)
Theorem reply_cycle (ru : option User.t) (e e1 e2 : Env) (text : string) (st : State)
    (cu : User.t) :
  isMounted st = true -> currentUser st = Some cu -> Js.trim text <> "" ->
  getSeconds e mod 3 = 0 -> respondingUsers cu (users st) <> [] ->
  exists r sent reply phrase,
    r ∈ users st /\ User.status r = User.online /\ User.id r <> User.id cu
    /\ let typing := TypingOn true r in
       let respond := Respond true cu (messages st) r ru in
       let st1 := snd (send (scopeOf ru st) e text st) in
       let st2 := fire e1 typing st1 in
       let st3 := fire e2 respond st2 in
       timers st1 = timers st ++
         [(now e + 0, ScrollToEnd); (now e + 1000, typing); (now e + 3000, respond)]
       /\ (forall u, u ∈ users st2 -> User.id u = User.id r -> User.isTyping u = true)
       /\ (forall u, u ∈ users st3 -> User.id u = User.id r -> User.isTyping u = false)
       /\ messages st3 = messages st ++ [sent; reply]
       /\ Message.text sent = text /\ Message.senderId sent = User.id cu
       /\ Message.senderId reply = User.id r /\ Message.timestamp reply = now e2
       /\ responses !! (length (messages st) mod 8)%nat = Some phrase
       /\ Message.text reply = phrase.
Proof.
  intros Hm Hcu Htrim Hsec Hcand.
  destruct (responses_in_range (length (messages st))) as (phrase & Hphrase & _).
  change (length responses) with 8%nat in Hphrase.
  destruct (send_answered (scopeOf ru st) e text st cu Hcu Hm Htrim Hsec Hcand)
    as (r & st0 & Hr & Hlog & Husers & Htimers & Hst1).
  apply respondingUsers_spec in Hr as (Hin & Hid & Honline).
  exists r. eexists. eexists. exists phrase.
  split; [done|]. split; [done|]. split; [done|].
  intros typing respond st1 st2 st3.
  subst st3 st2 st1 typing respond. rewrite Hst1. clear Hst1.
  split; [|split; [|split; [|split; [|split; [|split; [|split; [|split; [|split]]]]]]]].
  - unfold setTimeout. simpl. rewrite Htimers. by rewrite <- !app_assoc.
  - intros u Hu Hidu. simpl in Hu.
    apply list_elem_of_fmap in Hu as (u0 & -> & _).
    destruct (decide (User.id u0 = User.id r)); [done|]. done.
  - intros u Hu Hidu. simpl in Hu.
    assert (Hu' : exists u0, u = (if decide (User.id u0 = User.id r)
                                  then User.setIsTyping false u0 else u0)).
    { destruct (decide _); simpl in Hu;
        apply list_elem_of_fmap in Hu as (u0 & -> & _); by exists u0. }
    destruct Hu' as (u0 & ->). destruct (decide (User.id u0 = User.id r)); done.
  - simpl. destruct (decide _); simpl; rewrite Hlog; by rewrite <- app_assoc.
  - reflexivity.
  - reflexivity.
  - reflexivity.
  - reflexivity.
  - exact Hphrase.
  - change (default "" (responses !! (length (messages st) mod 8)%nat) = phrase).
    by rewrite Hphrase.
Qed.

(** Witness for X12: Dana sends "hi" at 22:13:24 over the eight seeded
    messages; the reply is the first canned phrase. *)
Lemma reply_cycle_witness :
  exists r sent reply,
    messages (fire (at_ 6000) (Respond true dana (messages danaSession) r None)
               (fire (at_ 4000) (TypingOn true r)
                  (snd (send (scopeOf None danaSession) (at_ 3000) "hi" danaSession))))
    = messages danaSession ++ [sent; reply]
    /\ Message.text reply = "That's interesting! Tell me more.".
Proof.
  destruct (reply_cycle None (at_ 3000) (at_ 4000) (at_ 6000) "hi" danaSession dana)
    as (r & sent & reply & phrase & _ & _ & _ & Hcycle).
  - reflexivity.
  - vm_compute. reflexivity.
  - vm_compute. discriminate.
  - vm_compute. reflexivity.
  - vm_compute. discriminate.
  - destruct Hcycle as (_ & _ & _ & Hlog & _ & _ & _ & _ & Hphrase & Htext).
    exists r, sent, reply. split; [exact Hlog|].
    rewrite Htext. vm_compute in Hphrase. by injection Hphrase.
Defined.

(** ** The reaction step of the simulator *)

Lemma find_none_Forall {A} (f : A -> bool) (l : list A) :
  Forall (fun x => f x = false) l -> List.find f l = None.
Proof.
  induction 1 as [|x l Hx _ IH]; simpl; [done|]. by rewrite Hx.
Qed.

Lemma emojis_in_range (n : nat) :
  exists em, emojis !! (n mod length emojis)%nat = Some em /\ em ∈ emojis.
Proof.
  assert (Hlt : (n mod length emojis < length emojis)%nat)
    by (apply Nat.mod_upper_bound; discriminate).
  apply lookup_lt_is_Some_2 in Hlt as [em Hem].
  exists em. split; [done|]. by eapply list_elem_of_lookup_2.
Qed.

(** X13: the reply callback sets the reaction step exactly when the length of
    the log before the send is a multiple of 3; the step looks for the last
    message of the local participant in that log, the one before the send: if
    there is none it changes nothing, and otherwise it calls
    [handleEmojiReaction] with the id of that message and the emoji at index
    (length of its text) mod 6 (the text being ASCII).  The handler it calls
    is the one that closed over the first render: in the running component
    the step changes nothing in either case. *)
Theorem reaction_step (e : Env) (cu r : User.t) (msgs : list Message.t)
    (ru : option User.t) (st : State) :
  timers (fire e (Respond true cu msgs r ru) st) =
    timers st ++
    (if decide ((length msgs mod 3)%nat = 0%nat)
     then [(now e + 1500, React true cu msgs ru)] else [])
  /\ (Forall (fun m => Message.senderId m <> User.id cu) msgs ->
      fire e (React true cu msgs ru) st = st)
  /\ (forall pre own post,
        msgs = pre ++ own :: post -> Message.senderId own = User.id cu ->
        Forall (fun m => Message.senderId m <> User.id cu) post ->
        Js.isAscii (Message.text own) = true ->
        exists emoji,
          emojis !! (String.length (Message.text own) mod 6)%nat = Some emoji
          /\ fire e (React true cu msgs ru) st
             = handleEmojiReaction ru e (Message.id own) emoji st)
  /\ fire e (React true cu msgs closedOverUser) st = st.
Proof.
  split; [|split; [|split]].
  - simpl. case_decide; simpl; [done|by rewrite app_nil_r].
  - intros Hnone. simpl. rewrite find_none_Forall; [done|].
    apply Forall_reverse. eapply Forall_impl; [exact Hnone|].
    intros m Hne. by apply bool_decide_eq_false.
  - intros pre own post -> Hown Hpost _.
    destruct (emojis_in_range (String.length (Message.text own))) as (emoji & Hemoji & _).
    exists emoji. split; [exact Hemoji|]. unfold fire. cbn [negb].
    rewrite reverse_app, reverse_cons, <- app_assoc.
    assert (Hfind : List.find (fun msg => bool_decide (Message.senderId msg = User.id cu))
                      (reverse post ++ [own] ++ reverse pre) = Some own).
    { generalize (reverse pre). apply Forall_reverse in Hpost.
      induction Hpost as [|x l Hx _ IH]; intros l'; simpl.
      - by rewrite bool_decide_eq_true_2.
      - rewrite bool_decide_eq_false_2 by done. apply IH. }
    rewrite Hfind. by rewrite Hemoji.
  - unfold fire. cbn [negb]. by destruct (List.find _ _).
Qed.

(** Witness for X13: the reaction step of the cycle in which Dana's "hi" is
    answered finds her "hello", sent before it, and the emoji at index 5. *)
Lemma reaction_step_witness :
  exists emoji,
    emojis !! 5%nat = Some emoji
    /\ fire (at_ 7500) (React true dana (messages helloSession) closedOverUser)
         reactionSession
       = handleEmojiReaction closedOverUser (at_ 7500) "msg-1700000003000-7" emoji
           reactionSession.
Proof.
  destruct (reaction_step (at_ 7500) dana samantha (messages helloSession) closedOverUser
              reactionSession) as (_ & _ & Hfound & _).
  destruct (Hfound (messages danaSession)
              (Message.mk "msg-1700000003000-7" "user-dana-1700000002000" "hello"
                 1700000003000 ∅ Message.sent) [])
    as (emoji & Hemoji & Hfire).
  - vm_compute. reflexivity.
  - reflexivity.
  - constructor.
  - reflexivity.
  - exists emoji. split; [exact Hemoji | exact Hfire].
Defined.

(** ** Status requests that follow each other *)

(** X15: a status request accepted while the frame of an earlier accepted
    request has not run replaces that frame: when the frame runs only the
    later status is committed, the earlier one never is; and a frame that
    runs with nothing pending, or a second time, changes nothing. *)
Theorem changeUserStatus_supersedes (sc : Scope) (e1 e2 : Env) (s1 s2 : User.Status)
    (st : State) (cu : User.t) :
  sc_currentUser sc = Some cu ->
  User.status cu <> s1 -> User.status cu <> s2 ->
  300 <= now e1 - lastStatusUpdateRef st -> 300 <= now e2 - now e1 ->
  let st2 := changeUserStatus sc e2 s2 (changeUserStatus sc e1 s1 st) in
  statusAnimationRef st2 = Some (cu, s2)
  /\ currentUser (statusFrame st2) = User.setStatus s2 <$> currentUser st
  /\ users (statusFrame st2) =
       map (fun user =>
         if decide (User.id user = User.id cu) then User.setStatus s2 user else user)
         (users st)
  /\ statusFrame (statusFrame st2) = statusFrame st2
  /\ (statusAnimationRef st = None -> statusFrame st = st).
Proof.
  intros Hcu Hs1 Hs2 H1 H2 st2. subst st2. unfold changeUserStatus. rewrite Hcu.
  rewrite !decide_False by done.
  apply Z.ltb_ge in H1. rewrite H1. simpl.
  apply Z.ltb_ge in H2. rewrite H2.
  split; [reflexivity|]. split; [|split; [reflexivity|split]].
  - unfold statusFrame. simpl. by destruct (currentUser st).
  - reflexivity.
  - intros Hnone. unfold statusFrame. by rewrite Hnone.
Qed.

(** Witness for X15: Dana asks for [brb] and, 300 ms later and before any
    frame, for [busy]. *)
Lemma changeUserStatus_supersedes_witness :
  (User.status <$>
     currentUser (statusFrame
       (changeUserStatus (scopeOf None danaSession) (at_ 2300) User.busy
          (changeUserStatus (scopeOf None danaSession) (at_ 2000) User.brb danaSession))))
  = Some User.busy.
Proof.
  destruct (changeUserStatus_supersedes (scopeOf None danaSession) (at_ 2000) (at_ 2300)
              User.brb User.busy danaSession dana) as (_ & Hcu & _).
  - vm_compute. reflexivity.
  - vm_compute. discriminate.
  - vm_compute. discriminate.
  - vm_compute. discriminate.
  - vm_compute. discriminate.
  - rewrite Hcu. vm_compute. reflexivity.
Defined.

(** ** Login and logout *)

Lemma noWhiteSpace_app (s t : string) :
  noWhiteSpace (s +:+ t) = noWhiteSpace s && noWhiteSpace t.
Proof.
  induction s as [|c s IH]; [done|].
  rewrite append_cons. simpl. rewrite IH. by rewrite andb_assoc.
Qed.

Lemma noWhiteSpace_replaceWhiteSpaceRuns (inRun : bool) (s : string) :
  noWhiteSpace (replaceWhiteSpaceRuns inRun s) = true.
Proof.
  revert inRun. induction s as [|c s IH]; intros inRun; simpl; [done|].
  destruct (Js.isWhiteSpace c) eqn:Hc.
  - destruct inRun; simpl; by rewrite IH.
  - simpl. by rewrite Hc, IH.
Qed.

Lemma isDigit_not_white (c : ascii) : isDigit c = true -> Js.isWhiteSpace c = false.
Proof.
  unfold isDigit, Js.isWhiteSpace. generalize (N_of_ascii c). intros n.
  rewrite andb_true_iff, !N.leb_le. intros [H1 H2].
  apply orb_false_iff. split.
  - apply andb_false_iff. right. apply N.leb_gt. lia.
  - apply N.eqb_neq. lia.
Qed.

Lemma noWhiteSpace_digits (s : string) : allDigits s = true -> noWhiteSpace s = true.
Proof.
  induction s as [|c s IH]; simpl; [done|].
  rewrite andb_true_iff. intros [Hc Hs]. by rewrite (isDigit_not_white c Hc), IH.
Qed.

(** X16, for an ASCII name: a login with a name of white space only, or
    before the component has mounted, changes nothing; any other login makes
    a new participant the local one and appends it to the roster, leaving the
    entries before it as they are.  The name of the participant is the name
    typed without the white space at its two ends, and is not empty; the
    participant is online and not typing; its id is made of the lower-case
    name with every run of white space turned into one dash and of the clock
    reading, holds no white space and is not the id of a seeded
    participant. *)
Theorem handleLogin_effect (sc : Scope) (e : Env) (localLoginName : string) (st : State) :
  Js.isAscii localLoginName = true ->
  (onlyWhiteSpace localLoginName = true \/ sc_isMounted sc = false ->
   handleLogin sc e localLoginName st = st)
  /\ (onlyWhiteSpace localLoginName = false -> sc_isMounted sc = true ->
      exists u pre post,
        handleLogin sc e localLoginName st =
          setShowLoginModal false
            (setUsers (fun prevUsers => prevUsers ++ [u])
              (setCurrentUser (fun _ => Some u) st))
        /\ localLoginName = pre +:+ User.name u +:+ post
        /\ onlyWhiteSpace pre = true /\ onlyWhiteSpace post = true
        /\ noLeadingWhiteSpace (User.name u) = true
        /\ noTrailingWhiteSpace (User.name u) = true
        /\ User.name u <> ""
        /\ User.status u = User.online /\ User.isTyping u = false
        /\ User.lastSeen u = None
        /\ User.id u =
             "user-" +:+ replaceWhiteSpaceRuns false (Js.toLowerCase (User.name u))
             +:+ "-" +:+ Js.ofNumber (now e)
        /\ noWhiteSpace (User.id u) = true
        /\ (forall t0, User.id u ∉ User.id <$> mockUsers t0)).
Proof.
  intros _. unfold handleLogin, handleLoginSubmit. split.
  - intros [Hblank%trim_onlyWhiteSpace | ->]; [by rewrite Hblank|].
    by destruct (Js.truthy _).
  - intros Hname Hm.
    assert (Htrim : Js.trim localLoginName <> "").
    { intros Hempty%trim_onlyWhiteSpace. congruence. }
    destruct (trim_spec localLoginName) as (pre & post & Heq & Hpre & Hpost & Hhead & Hlast).
    rewrite (proj2 (truthy_nonempty _) Htrim), Hm. simpl.
    eexists. exists pre, post. split; [reflexivity|]. simpl.
    split; [exact Heq|]. repeat split; try done.
    + rewrite !noWhiteSpace_app, noWhiteSpace_replaceWhiteSpaceRuns.
      by rewrite (noWhiteSpace_digits _ (allDigits_ofNumber (now e))).
    + intros t0. rewrite !elem_of_cons, elem_of_nil.
      intros [H | [H | [H | [H | [H | []]]]]]; rewrite !append_cons in H; discriminate H.
Qed.

(** Witness for X16: "  Dana  Lee " logs in on the mounted page. *)
Lemma handleLogin_effect_witness :
  exists u,
    currentUser (handleLogin (scopeOf None danaSession) (at_ 2000) "  Dana  Lee " danaSession)
      = Some u
    /\ "  Dana  Lee " = "  " +:+ User.name u +:+ " "
    /\ User.id u = "user-dana-lee-1700000003000".
Proof.
  destruct (handleLogin_effect (scopeOf None danaSession) (at_ 2000) "  Dana  Lee "
              danaSession) as [_ Hlogin]; [reflexivity|].
  destruct Hlogin as (u & pre & post & Hst & _ & _ & _ & _ & _ & _ & _ & _ & _ & Hid & _).
  - reflexivity.
  - reflexivity.
  - exists u. rewrite Hst in *. split; [reflexivity|].
    assert (Hname : User.name u = "Dana  Lee").
    { apply (f_equal currentUser) in Hst. vm_compute in Hst. by injection Hst as <-. }
    rewrite Hid, Hname. split; vm_compute; reflexivity.
Defined.

(** X17: a logout keeps the local participant until its timer has run, 150
    ms later; from then on there is none, the login modal is shown, and the
    roster and the log are what they were: the participant stays in the
    roster and the messages stay attributed.  In a state without local
    participant a send, a status request and a click on an emoji change
    nothing. *)
Theorem logout_effect (ru : option User.t) (e e' e2 : Env) (st : State) :
  let st1 := handleLogout e st in
  let st2 := fire e' LogoutCommit st1 in
  timers st1 = timers st ++ [(now e + 150, LogoutCommit)]
  /\ currentUser st1 = currentUser st
  /\ currentUser st2 = None /\ showLoginModal st2 = true /\ showSettingsModal st2 = false
  /\ users st2 = users st /\ messages st2 = messages st
  /\ (forall text, apply ru e2 (Send text) st2 = Some st2)
  /\ (forall status, apply ru e2 (ChangeStatus status) st2 = Some st2)
  /\ (forall messageId emoji, apply ru e2 (EmojiClick messageId emoji) st2 = Some st2).
Proof.
  intros st1 st2. repeat split.
  intros text. simpl. f_equal.
  change (snd (send (scopeOf ru st2) e2 text st2) = st2).
  by rewrite send_rejected by (by right).
Qed.

(** ** Typing flags *)

(** X18: setting the typing flag of a participant is a last-write-wins set:
    a second update for the same id overrides the first, updates for two ids
    commute, and entries with another id, the order and the length of the
    roster are untouched. *)
Theorem updateUserTypingStatus_set (userId userId' : string) (b b' : bool) (st : State) :
  updateUserTypingStatus userId b (updateUserTypingStatus userId b' st)
    = updateUserTypingStatus userId b st
  /\ (userId <> userId' ->
      updateUserTypingStatus userId b (updateUserTypingStatus userId' b' st)
      = updateUserTypingStatus userId' b' (updateUserTypingStatus userId b st))
  /\ length (users (updateUserTypingStatus userId b st)) = length (users st)
  /\ (forall i u, users st !! i = Some u -> User.id u <> userId ->
        users (updateUserTypingStatus userId b st) !! i = Some u)
  /\ (forall i u, users st !! i = Some u -> User.id u = userId ->
        users (updateUserTypingStatus userId b st) !! i = Some (User.setIsTyping b u)).
Proof.
  split; [|split; [|split; [|split]]].
  - unfold updateUserTypingStatus.
    change (setUsers (map ?f) (setUsers (map ?g) st))
      with (setUsers (fun l => map f (map g l)) st).
    unfold setUsers. f_equal. rewrite map_map. apply map_ext. intros u.
    destruct (decide (User.id u = userId)); simpl;
      [by rewrite decide_True | by rewrite decide_False].
  - intros Hne. unfold updateUserTypingStatus.
    change (setUsers (map ?f) (setUsers (map ?g) st))
      with (setUsers (fun l => map f (map g l)) st).
    unfold setUsers. f_equal. rewrite !map_map. apply map_ext. intros u.
    destruct (decide (User.id u = userId')) as [Hu'|Hu'],
             (decide (User.id u = userId)) as [Hu|Hu]; simpl;
      rewrite ?decide_True, ?decide_False by done; simpl;
      rewrite ?decide_True, ?decide_False by done; try done.
    congruence.
  - simpl. apply length_map.
  - intros i u Hi Hne. simpl. rewrite list_lookup_fmap, Hi. simpl. by rewrite decide_False.
  - intros i u Hi Heq. simpl. rewrite list_lookup_fmap, Hi. simpl. by rewrite decide_True.
Qed.

(** Witness for X18: Samantha is set typing in Dana's session. *)
Lemma updateUserTypingStatus_set_witness :
  (User.isTyping <$> users (updateUserTypingStatus "user2" true danaSession) !! 1%nat)
  = Some true.
Proof.
  destruct (updateUserTypingStatus_set "user2" "user1" true false danaSession)
    as (_ & _ & _ & _ & Hset).
  rewrite (Hset 1%nat samantha); [reflexivity|vm_compute; reflexivity|reflexivity].
Defined.

(** ** The debounced search *)

Lemma typed_query (onSearch : Scope) (keys : list (Env * string)) (s : SearchInput.t) :
  SearchInput.localSearchQuery (foldl (SearchInput.type onSearch) s keys)
  = default (SearchInput.localSearchQuery s) (last keys.*2).
Proof.
  revert s. induction keys as [|k keys IH]; intros s; [done|].
  simpl. rewrite IH. rewrite last_cons. simpl.
  change (list_fmap _ _ snd keys) with (keys.*2). by destruct (last keys.*2).
Qed.

(** X19: while the search input stays mounted, every change of its text
    replaces the pending timer, so one search runs, 1000 ms after the last
    change; that search is made with the text as it was before the last
    change, the one the callback closed over, not with the text shown; the
    Enter key searches for the text shown. *)
Theorem debounced_search_lags (onSearch : Scope) (s : SearchInput.t)
    (keys : list (Env * string)) (e e' : Env) (value : string) (st : State) :
  now e + 1000 <= now e' ->
  let before := foldl (SearchInput.type onSearch) s keys in
  let s' := SearchInput.type onSearch before (e, value) in
  s' = SearchInput.mk value true
         (Some (now e + 1000, SearchInput.localSearchQuery before, onSearch))
  /\ SearchInput.localSearchQuery before
     = default (SearchInput.localSearchQuery s) (last keys.*2)
  /\ snd (SearchInput.typingTimeout e' s' st)
     = performSearch onSearch (SearchInput.localSearchQuery before) st
  /\ snd (SearchInput.handleKeyDown (SearchInput.localSearchQuery s') onSearch "Enter" s' st)
     = performSearch onSearch value st.
Proof.
  intros Hdue before s'. split; [reflexivity|]. split; [apply typed_query|]. split.
  - subst s'. unfold SearchInput.typingTimeout, SearchInput.type,
      SearchInput.handleInputChange, SearchInput.handleTyping. simpl.
    apply Z.leb_le in Hdue. by rewrite Hdue.
  - reflexivity.
Qed.

(** Witness for X19: Dana types h, he, hel, help; the search that runs after
    the pause looks for "hel". *)
Lemma debounced_search_lags_witness :
  snd (SearchInput.typingTimeout (at_ 5000)
         (foldl (SearchInput.type (scopeOf None danaSession)) (SearchInput.mk "" false None)
            [(at_ 2000, "h"); (at_ 2200, "he"); (at_ 2400, "hel"); (at_ 2600, "help")])
         danaSession)
  = performSearch (scopeOf None danaSession) "hel" danaSession.
Proof.
  destruct (debounced_search_lags (scopeOf None danaSession) (SearchInput.mk "" false None)
              [(at_ 2000, "h"); (at_ 2200, "he"); (at_ 2400, "hel")] (at_ 2600) (at_ 5000)
              "help" danaSession) as (_ & _ & Hsearch & _).
  - simpl. lia.
  - exact Hsearch.
Defined.

(** ** The reaction handler of the running component *)

Lemma simulateResponse_quiet (sc : Scope) (e : Env) (st : State) :
  sc_reactionUser sc = closedOverUser -> quiet st -> quiet (simulateResponse sc e st).
Proof.
  unfold quiet. intros Hru Hst. unfold simulateResponse.
  repeat case_match; try done.
  simpl. rewrite !Forall_app. repeat split; [done|..]; by apply Forall_singleton.
Qed.

(** A send: nothing, or one message more, the scroll and, when the simulator
    answers, its two callbacks. *)
Lemma send_quiet (sc : Scope) (e : Env) (text : string) (st : State) :
  sc_reactionUser sc = closedOverUser -> quiet st ->
  quiet (snd (send sc e text st))
  /\ messages st `prefix_of` messages (snd (send sc e text st)).
Proof.
  intros Hru Hst.
  destruct (send_cases sc e text st) as [-> | (cu & Hcu & Hm & Ht)]; [done|].
  destruct (send_accepted sc e text st cu Hcu Hm Ht) as (_ & Hlog & _).
  split; [|rewrite Hlog; by apply prefix_app_r].
  unfold send, ChatInput.handleSendMessage, handleSendMessage. simpl.
  apply truthy_nonempty in Ht. rewrite Ht, Hcu, Hm. simpl.
  apply simulateResponse_quiet; [done|].
  unfold quiet. destruct (sc_typingTimeout sc); simpl;
    (apply Forall_app; split; [exact Hst | by apply Forall_singleton]).
Qed.

(** One event of the running component: the pending callbacks stay
    [asScheduled], and once the component is mounted the log is only
    extended. *)
Lemma apply_quiet (e : Env) (ev : Event) (st st' : State) :
  quiet st -> apply closedOverUser e ev st = Some st' ->
  quiet st' /\ (isMounted st = true -> messages st `prefix_of` messages st').
Proof.
  intros Hst. destruct ev; simpl; intros Happ.
  - destruct (isMounted st); [discriminate Happ|]. injection Happ as <-. done.
  - injection Happ as <-. unfold handleLogin, handleLoginSubmit.
    repeat case_match; done.
  - injection Happ as <-. split; [|done]. unfold quiet. simpl.
    apply Forall_app. split; [exact Hst | by apply Forall_singleton].
  - injection Happ as <-.
    destruct (send_quiet (scopeOf closedOverUser st) e text st) as [Hq Hp]; done.
  - destruct (currentUser st); by injection Happ as <-.
  - injection Happ as <-. unfold changeUserStatus. repeat case_match; done.
  - injection Happ as <-. unfold statusFrame. repeat case_match; done.
  - destruct (timers st !! i) as [[due cb]|] eqn:Hi; [|discriminate].
    destruct (due <=? now e); [|discriminate]. injection Happ as <-.
    assert (Hcb : asScheduled cb).
    { apply (proj1 (Forall_forall _ _) Hst (due, cb)). by eapply list_elem_of_lookup_2. }
    assert (Hrest : quiet (setTimers (delete i) st)).
    { unfold quiet. simpl. by apply Forall_delete. }
    destruct cb as [m r | m cu msgs r ru | m cu msgs ru | has top height | | ];
      simpl in Hcb |- *.
    + by destruct m.
    + destruct m; simpl; [|done]. subst ru. case_decide; simpl.
      * split; [|intros _; by apply prefix_app_r]. unfold quiet. simpl.
        apply Forall_app. split; [exact Hrest | by apply Forall_singleton].
      * split; [exact Hrest | intros _; by apply prefix_app_r].
    + subst ru. destruct m; simpl; [|done]. by destruct (List.find _ _).
    + destruct Hcb.
    + done.
    + done.
  - injection Happ as <-. unfold performSearch. repeat case_match; done.
  - by injection Happ as <-.
Qed.

Lemma reachable_quiet (st : State) : reachable closedOverUser st -> quiet st.
Proof.
  intros [evs Hrun].
  assert (H : exists c : Z, quiet st); [|by destruct H].
  apply (run_invariant closedOverUser (fun _ => quiet)) with
    (evs := evs) (c := 0) (st := initialState); [|constructor|done].
  intros e ev c s s' _ _ Hs Happ. by destruct (apply_quiet e ev s s' Hs Happ).
Qed.

(** X20: in the running component no event edits or removes a message of the
    log, its reactions included: from a reachable mounted state on, the log
    before a run of events is a prefix of the log after it.  A click on an
    emoji and the reaction step of the simulator call a handler that returns
    at once, so no reaction is ever recorded in the log and no
    [restoreScroll] is ever pending. *)
Theorem log_never_edited (evs : list (Env * Event)) (c : Z) (st st' : State) :
  reachable closedOverUser st -> isMounted st = true ->
  run closedOverUser evs c st = Some st' ->
  messages st `prefix_of` messages st'
  /\ (forall t container top height,
        t ∈ timers st' -> t.2 <> RestoreScroll container top height)
  /\ (forall e messageId emoji,
        apply closedOverUser e (EmojiClick messageId emoji) st' = Some st').
Proof.
  intros Hreach Hm Hrun.
  destruct (run_preserves closedOverUser (fun s => isMounted s = true /\ quiet s)
              (fun a b => messages a `prefix_of` messages b)) with
    (evs := evs) (c := c) (st := st) (st' := st') as [[_ Hq] Hp].
  - done.
  - intros a b d Hab Hbd. by etrans.
  - intros e ev s s' [Hs Hqs] Happ.
    destruct (apply_quiet e ev s s' Hqs Happ) as [Hq' Hp'].
    split; [|by apply Hp']. split; [by eapply apply_isMounted|done].
  - split; [done|by apply reachable_quiet].
  - done.
  - split; [exact Hp|]. split.
    + intros t container top height Hin Heq.
      pose proof (proj1 (Forall_forall _ _) Hq t Hin) as Ht.
      cbv beta in Ht. rewrite Heq in Ht. exact Ht.
    + intros e messageId emoji. simpl. by destruct (currentUser st').
Qed.

(** Witness for X20: from Dana's login to the pending reaction step of the
    cycle that answers her "hi". *)
Lemma log_never_edited_witness :
  messages danaSession `prefix_of` messages reactionSession.
Proof.
  destruct (log_never_edited (drop 2 reactionEvents) (now (at_ 1000)) danaSession
              reactionSession) as [Hp _].
  - exists [(at_ 0, Mount); (at_ 1000, Login "Dana")]. vm_compute. reflexivity.
  - reflexivity.
  - vm_compute. reflexivity.
  - exact Hp.
Defined.

(** ** Creation times along the log *)

(** X21: under a clock that never goes back, creation timestamps never
    decrease along the log: in every reachable state a later entry was not
    created before an earlier one, whatever the interleaving of seeding,
    sends and simulator replies. *)
Theorem log_times_nondecreasing (ru : option User.t) (st : State) (i j : nat)
    (m m' : Message.t) :
  reachable ru st -> (i < j)%nat ->
  messages st !! i = Some m -> messages st !! j = Some m' ->
  Message.timestamp m <= Message.timestamp m'.
Proof.
  intros Hreach Hij Hi Hj.
  destruct (reachable_logInv ru st Hreach) as [c Hinv].
  apply logInv_inOrder in Hinv.
  apply (StronglySorted_lookup inOrder _ i j (key m) (key m') Hinv Hij);
    rewrite list_lookup_fmap; [by rewrite Hi | by rewrite Hj].
Qed.

(** Witness for X21: the last seeded message and Dana's first message in the
    run with two replies. *)
Lemma log_times_nondecreasing_witness :
  Message.timestamp (default msg2 (messages twinReplySession !! 7%nat))
  <= Message.timestamp (default msg2 (messages twinReplySession !! 8%nat)).
Proof.
  apply (log_times_nondecreasing None twinReplySession 7 8).
  - exists twinReplyEvents. vm_compute. reflexivity.
  - lia.
  - vm_compute. reflexivity.
  - vm_compute. reflexivity.
Defined.
